(** * Q-game backend: the rules engine of [app/backend/server.py]

    A shallow embedding of the game logic of the FastAPI server (tile pool,
    dealing, placement validation, scoring, and the [perform_action] request
    handler together with the document store it reads and writes), followed
    by the properties established about it.

    Conventions.
    - Python [int] is [Z]; [len] results are [nat] and are injected into [Z]
      where the source mixes them with integers.
    - [random.shuffle] is CPython's Fisher-Yates loop; the values drawn by
      the generator are an explicit argument [rnd], so a statement quantified
      over [rnd] covers every outcome of the shuffle.
    - [uuid.uuid4] is an explicit stream [uuid : nat -> string]; the n-th
      call made while serving a request returns [uuid n].
    - The Mongo collection [db.games] is a list of documents.
    - A request handler works on a local [GameState] object that it mutates
      in place; the handler monad [M] keeps that object next to the result,
      also when an exception is raised. *)

From stdpp Require Import base numbers list strings gmap sorting pretty.

Local Open Scope string_scope.
Local Open Scope list_scope.
Local Open Scope Z_scope.

(** ** Game constants *)

Definition SHAPES : list string :=
  ["star"; "8star"; "square"; "circle"; "clover"; "diamond"].
Definition COLORS : list string :=
  ["red"; "green"; "blue"; "yellow"; "orange"; "purple"].
Definition TILES_PER_TYPE : nat := 30.
Definition INITIAL_HAND_SIZE : nat := 6.

(** ** Enums *)

Inductive GameStatus := WAITING | IN_PROGRESS | FINISHED.
Inductive PlayerType := HUMAN | AI.
Inductive ActionType := PASS | EXCHANGE | PLACE.

#[global] Instance GameStatus_eq_dec : EqDecision GameStatus.
Proof. solve_decision. Defined.
#[global] Instance PlayerType_eq_dec : EqDecision PlayerType.
Proof. solve_decision. Defined.
#[global] Instance ActionType_eq_dec : EqDecision ActionType.
Proof. solve_decision. Defined.

(** ** Models

    Field names are the source's; a field name used by several models
    carries the model's name ([Tile_id], [Player_id], [GameState_id],
    [PlacedTile_turn_number]). *)

Record Tile := mkTile {
  shape : string;
  color : string;
  Tile_id : string
}.

Record Position := mkPosition {
  row : Z;
  col : Z
}.

Record PlacedTile := mkPlacedTile {
  tile : Tile;
  position : Position;
  placed_by : string;
  PlacedTile_turn_number : Z
}.

Record Player := mkPlayer {
  Player_id : string;
  name : string;
  player_type : PlayerType;
  hand : list Tile;
  score : Z;
  is_active : bool
}.

Record GameAction := mkGameAction {
  action_type : ActionType;
  player_id : string;
  tiles : option (list Tile);
  positions : option (list Position)
}.

Record GameState := mkGameState {
  GameState_id : string;
  status : GameStatus;
  players : list Player;
  board : list PlacedTile;
  remaining_tiles : list Tile;
  current_player_index : Z;
  turn_number : Z;
  created_at : Z;
  winner_id : option string;
  consecutive_passes : Z
}.

Record CreateGameRequest := mkCreateGameRequest {
  player_name : string;
  num_ai_players : Z
}.

Record GameActionRequest := mkGameActionRequest {
  game_id : string;
  action : GameAction
}.

#[global] Instance Tile_eq_dec : EqDecision Tile.
Proof. solve_decision. Defined.
#[global] Instance Position_eq_dec : EqDecision Position.
Proof. solve_decision. Defined.
#[global] Instance PlacedTile_eq_dec : EqDecision PlacedTile.
Proof. solve_decision. Defined.
#[global] Instance Player_eq_dec : EqDecision Player.
Proof. solve_decision. Defined.

(** Attribute assignment on the models ([obj.field = v]). *)

Definition set_hand (h : list Tile) (p : Player) : Player :=
  mkPlayer (Player_id p) (name p) (player_type p) h (score p) (is_active p).
Definition set_score (s : Z) (p : Player) : Player :=
  mkPlayer (Player_id p) (name p) (player_type p) (hand p) s (is_active p).

Definition set_status (v : GameStatus) (g : GameState) : GameState :=
  mkGameState (GameState_id g) v (players g) (board g) (remaining_tiles g)
    (current_player_index g) (turn_number g) (created_at g) (winner_id g)
    (consecutive_passes g).
Definition set_players (v : list Player) (g : GameState) : GameState :=
  mkGameState (GameState_id g) (status g) v (board g) (remaining_tiles g)
    (current_player_index g) (turn_number g) (created_at g) (winner_id g)
    (consecutive_passes g).
Definition set_board (v : list PlacedTile) (g : GameState) : GameState :=
  mkGameState (GameState_id g) (status g) (players g) v (remaining_tiles g)
    (current_player_index g) (turn_number g) (created_at g) (winner_id g)
    (consecutive_passes g).
Definition set_remaining_tiles (v : list Tile) (g : GameState) : GameState :=
  mkGameState (GameState_id g) (status g) (players g) (board g) v
    (current_player_index g) (turn_number g) (created_at g) (winner_id g)
    (consecutive_passes g).
Definition set_current_player_index (v : Z) (g : GameState) : GameState :=
  mkGameState (GameState_id g) (status g) (players g) (board g)
    (remaining_tiles g) v (turn_number g) (created_at g) (winner_id g)
    (consecutive_passes g).
Definition set_turn_number (v : Z) (g : GameState) : GameState :=
  mkGameState (GameState_id g) (status g) (players g) (board g)
    (remaining_tiles g) (current_player_index g) v (created_at g)
    (winner_id g) (consecutive_passes g).
Definition set_winner_id (v : option string) (g : GameState) : GameState :=
  mkGameState (GameState_id g) (status g) (players g) (board g)
    (remaining_tiles g) (current_player_index g) (turn_number g)
    (created_at g) v (consecutive_passes g).
Definition set_consecutive_passes (v : Z) (g : GameState) : GameState :=
  mkGameState (GameState_id g) (status g) (players g) (board g)
    (remaining_tiles g) (current_player_index g) (turn_number g)
    (created_at g) (winner_id g) v.

(** ** Python library behaviour used by the game logic *)

Section python.
Context {A : Type}.

(** [x[i], x[j] = x[j], x[i]]: both reads happen before both writes. *)
Definition swap (x : list A) (i j : nat) : list A :=
  match x !! i, x !! j with
  | Some a, Some b => <[j := a]> (<[i := b]> x)
  | _, _ => x
  end.

(** The loop of [random.shuffle]:
    [for i in reversed(range(1, len(x))): j = randbelow(i + 1); swap].
    [rnd i] is the raw value drawn at loop index [i]. *)
Fixpoint shuffle_loop (rnd : nat → nat) (i : nat) (x : list A) : list A :=
  match i with
  | O => x
  | S i' => shuffle_loop rnd i' (swap x i (rnd i mod (i + 1))%nat)
  end.

Definition shuffle (rnd : nat → nat) (x : list A) : list A :=
  shuffle_loop rnd (length x - 1)%nat x.

(** [l[i]] for a Python integer index: negative indices count from the
    end; [None] stands for [IndexError]. *)
Definition py_index (n : nat) (i : Z) : option nat :=
  if bool_decide (0 ≤ i < Z.of_nat n) then Some (Z.to_nat i)
  else if bool_decide (- Z.of_nat n ≤ i < 0) then Some (Z.to_nat (Z.of_nat n + i))
  else None.

(** [l[:-n]]; for [n = 0] Python reads the slice as [l[:0]]. *)
Definition py_drop_last (n : nat) (l : list A) : list A :=
  match n with
  | O => []
  | _ => take (length l - n)%nat l
  end.

(** [next(t for t in l if f t)]; [None] stands for [StopIteration]. *)
Definition py_next (f : A → bool) (l : list A) : option A := List.find f l.

(** [l.remove(x)]: drops the first element equal to [x]; [None] stands
    for [ValueError]. *)
Fixpoint py_remove `{EqDecision A} (x : A) (l : list A) : option (list A) :=
  match l with
  | [] => None
  | y :: l' =>
      if decide (y = x) then Some l'
      else match py_remove x l' with
           | Some r => Some (y :: r)
           | None => None
           end
  end.

(** [max(l, key=key)]: the first element whose key is maximal; [None]
    stands for [ValueError] on an empty list. *)
Fixpoint py_max_from (key : A → Z) (best : A) (l : list A) : A :=
  match l with
  | [] => best
  | x :: l' => py_max_from key (if key best <? key x then x else best) l'
  end.

Definition py_max (key : A → Z) (l : list A) : option A :=
  match l with
  | [] => None
  | x :: l' => Some (py_max_from key x l')
  end.
End python.

(** ** Game logic functions *)

(** The innermost loop of [create_all_tiles]: [n] tiles of one type, the
    k-th tile created overall taking the k-th identifier. *)
Fixpoint append_tiles (uuid : nat → string) (sh co : string) (n : nat)
    (acc : list Tile * nat) : list Tile * nat :=
  match n with
  | O => acc
  | S n' =>
      append_tiles uuid sh co n'
        (acc.1 ++ [mkTile sh co (uuid acc.2)], S acc.2)
  end.

Definition unshuffled_tiles (uuid : nat → string) : list Tile :=
  (foldl (λ acc sh,
      foldl (λ acc co, append_tiles uuid sh co TILES_PER_TYPE acc) acc COLORS)
    ([], O) SHAPES).1.

Definition create_all_tiles (uuid : nat → string) (rnd : nat → nat) : list Tile :=
  shuffle rnd (unshuffled_tiles uuid).

(** [deal_initial_hands], as a loop over the players that threads the pile. *)
Fixpoint deal_hands (ps : list Player) (pile : list Tile) : list Player * list Tile :=
  match ps with
  | [] => ([], pile)
  | p :: ps' =>
      let p' := set_hand (take INITIAL_HAND_SIZE pile) p in
      let r := deal_hands ps' (drop INITIAL_HAND_SIZE pile) in
      (p' :: r.1, r.2)
  end.

Definition deal_initial_hands (g : GameState) : GameState :=
  let r := deal_hands (players g) (remaining_tiles g) in
  set_remaining_tiles r.2 (set_players r.1 g).

Definition place_initial_tile (g : GameState) : GameState :=
  match remaining_tiles g with
  | [] => g
  | initial_tile :: rest =>
      let placed_tile := mkPlacedTile initial_tile (mkPosition 0 0) "referee" 0 in
      set_board (board g ++ [placed_tile]) (set_remaining_tiles rest g)
  end.

(** [{(tile.position.row, tile.position.col): tile for tile in board}]:
    a later tile on the same key replaces an earlier one. *)
Definition board_dict (b : list PlacedTile) : gmap (Z * Z) PlacedTile :=
  foldl (λ d pt, <[(row (position pt), col (position pt)) := pt]> d) ∅ b.

Definition get_neighbors (pos : Position) (b : list PlacedTile)
    : list (string * option PlacedTile) :=
  let d := board_dict b in
  [("up", d !! (row pos - 1, col pos));
   ("down", d !! (row pos + 1, col pos));
   ("left", d !! (row pos, col pos - 1));
   ("right", d !! (row pos, col pos + 1))].

Definition validate_tile_placement (t : Tile) (pos : Position)
    (b : list PlacedTile) : bool :=
  if existsb (λ placed_tile,
        (row (position placed_tile) =? row pos)
        && (col (position placed_tile) =? col pos)) b
  then false
  else
    let neighbors := get_neighbors pos b in
    let adjacent_neighbors := omap snd neighbors in
    if bool_decide (adjacent_neighbors = []) && negb (bool_decide (b = []))
    then false
    else
      forallb (λ neighbor,
          String.eqb (color t) (color (tile neighbor))
          || String.eqb (shape t) (shape (tile neighbor)))
        adjacent_neighbors.

(** The sort keys of [calculate_score]: [key=lambda x: x.position.col] and
    [key=lambda x: x.position.row]. *)
Definition by_col (x y : PlacedTile) : Prop :=
  col (position x) ≤ col (position y).
Definition by_row (x y : PlacedTile) : Prop :=
  row (position x) ≤ row (position y).

#[global] Instance by_col_dec : RelDecision by_col.
Proof. intros x y. unfold by_col. apply _. Defined.
#[global] Instance by_row_dec : RelDecision by_row.
Proof. intros x y. unfold by_row. apply _. Defined.

(** The two sequences [calculate_score] builds for one placed tile: the
    board's tiles of the same row (column), the new tile appended, sorted. *)
Definition row_tiles (t : Tile) (pos : Position) (b : list PlacedTile)
    : list PlacedTile :=
  let row_tiles := filter (λ pt, row (position pt) = row pos) b in
  let row_tiles := row_tiles ++ [mkPlacedTile t pos "temp" 0] in
  merge_sort by_col row_tiles.

Definition col_tiles (t : Tile) (pos : Position) (b : list PlacedTile)
    : list PlacedTile :=
  let col_tiles := filter (λ pt, col (position pt) = col pos) b in
  let col_tiles := col_tiles ++ [mkPlacedTile t pos "temp" 0] in
  merge_sort by_row col_tiles.

Definition calculate_score (placed_tiles : list (Tile * Position))
    (b : list PlacedTile) : Z :=
  foldl (λ score tp,
      score + Z.of_nat (length (row_tiles tp.1 tp.2 b))
            + Z.of_nat (length (col_tiles tp.1 tp.2 b)))
    (Z.of_nat (length placed_tiles)) placed_tiles.

(** ** The request handler monad *)

Inductive Exception :=
  | HTTPException (status_code : Z) (detail : string)
  | IndexError
  | ValueError
  | ZeroDivisionError.

Inductive result (A : Type) :=
  | Return (a : A)
  | Raise (e : Exception).
Arguments Return {A} a.
Arguments Raise {A} e.

(** A computation on the handler's local [game_state] object. The object
    is kept as it is at the point an exception is raised. *)
Definition M (A : Type) : Type := GameState → result A * GameState.

#[global] Instance M_ret : MRet M := λ A a g, (Return a, g).
#[global] Instance M_bind : MBind M := λ A B f m g,
  match m g with
  | (Return a, g') => f a g'
  | (Raise e, g') => (Raise e, g')
  end.

Definition get : M GameState := λ g, (Return g, g).
Definition modify (f : GameState → GameState) : M unit := λ g, (Return (), f g).
Definition raise {A} (e : Exception) : M A := λ g, (Raise e, g).

Fixpoint for_each {A} (f : A → M unit) (l : list A) : M unit :=
  match l with
  | [] => mret ()
  | x :: l' => f x;; for_each f l'
  end.

Definition enumerate {A} (l : list A) : list (nat * A) :=
  zip (seq 0 (length l)) l.

(** [current_player] is the object [game_state.players[k]]: reading it
    looks the slot up, assigning to one of its attributes updates the slot. *)
Definition current (k : nat) : M Player := λ g,
  match players g !! k with
  | Some p => (Return p, g)
  | None => (Raise IndexError, g)
  end.

Definition update_player (k : nat) (f : Player → Player) (g : GameState)
    : GameState :=
  set_players (alter f k (players g)) g.

(** ** [perform_action]: the three kinds of action *)

Definition same_type (t t' : Tile) : bool :=
  String.eqb (shape t') (shape t) && String.eqb (color t') (color t).

Definition exchange (rnd : nat → nat) (k : nat) : M unit :=
  current_player ← current k;
  let returned_tiles := hand current_player in
  modify (λ g, set_remaining_tiles (remaining_tiles g ++ returned_tiles) g);;
  modify (λ g, set_remaining_tiles (shuffle rnd (remaining_tiles g)) g);;
  g ← get;
  let new_hand_size :=
    (length returned_tiles `min` length (remaining_tiles g))%nat in
  modify (update_player k (set_hand (take new_hand_size (remaining_tiles g))));;
  modify (λ g, set_remaining_tiles (drop new_hand_size (remaining_tiles g)) g);;
  modify (set_consecutive_passes 0).

Definition validate_step (itp : nat * (Tile * Position)) : M unit :=
  g ← get;
  if validate_tile_placement itp.2.1 itp.2.2 (board g) then mret ()
  else raise (HTTPException 400 ("Invalid placement for tile " +:+ pretty itp.1)).

Definition remove_from_hand (k : nat) (t : Tile) : M unit :=
  current_player ← current k;
  match py_next (same_type t) (hand current_player) with
  | None => raise (HTTPException 400 "Tile not in hand")
  | Some tile_in_hand =>
      match py_remove tile_in_hand (hand current_player) with
      | None => raise ValueError
      | Some h => modify (update_player k (set_hand h))
      end
  end.

Definition place_on_board (k : nat) (tp : Tile * Position) : M unit :=
  current_player ← current k;
  modify (λ g,
    let placed_tile :=
      mkPlacedTile tp.1 tp.2 (Player_id current_player) (turn_number g) in
    set_board (board g ++ [placed_tile]) g).

Definition place (k : nat) (a : GameAction) : M unit :=
  match tiles a, positions a with
  | Some ts, Some ps =>
      if bool_decide (ts = []) || bool_decide (ps = []) then
        raise (HTTPException 400 "Tiles and positions required for placement")
      else
        for_each validate_step (enumerate (zip ts ps));;
        for_each (remove_from_hand k) ts;;
        for_each (place_on_board k) (zip ts ps);;
        g ← get;
        let sc :=
          calculate_score (zip ts ps) (py_drop_last (length ts) (board g)) in
        modify (update_player k (λ p, set_score (score p + sc) p));;
        g ← get;
        let new_tiles_count := (length ts `min` length (remaining_tiles g))%nat in
        modify (update_player k (λ p,
          set_hand (hand p ++ take new_tiles_count (remaining_tiles g)) p));;
        modify (λ g,
          set_remaining_tiles (drop new_tiles_count (remaining_tiles g)) g);;
        modify (set_consecutive_passes 0);;
        current_player ← current k;
        if bool_decide (hand current_player = []) then
          modify (update_player k (λ p, set_score (score p + 6) p));;
          modify (set_status FINISHED);;
          modify (set_winner_id (Some (Player_id current_player)))
        else mret ()
  | _, _ =>
      raise (HTTPException 400 "Tiles and positions required for placement")
  end.

Definition next_player : M unit :=
  g ← get;
  if bool_decide (players g = []) then raise ZeroDivisionError
  else
    modify (set_current_player_index
      ((current_player_index g + 1) `mod` Z.of_nat (length (players g))));;
    modify (λ g, set_turn_number (turn_number g + 1) g).

Definition check_game_end : M unit :=
  g ← get;
  if bool_decide (Z.of_nat (length (players g)) ≤ consecutive_passes g) then
    modify (set_status FINISHED);;
    match py_max score (players g) with
    | None => raise ValueError
    | Some winner => modify (set_winner_id (Some (Player_id winner)))
    end
  else mret ().

(** The body of [perform_action] between loading [game_state] from the
    store and writing it back. *)
Definition apply_action (rnd : nat → nat) (a : GameAction) : M unit :=
  game_state ← get;
  if bool_decide (status game_state ≠ IN_PROGRESS) then
    raise (HTTPException 400 "Game is not in progress")
  else
    match py_index (length (players game_state))
            (current_player_index game_state) with
    | None => raise IndexError
    | Some k =>
        current_player ← current k;
        if bool_decide (player_id a ≠ Player_id current_player) then
          raise (HTTPException 400 "Not your turn")
        else
          match action_type a with
          | PASS =>
              modify (λ g,
                set_consecutive_passes (consecutive_passes g + 1) g)
          | EXCHANGE => exchange rnd k
          | PLACE => place k a
          end;;
          next_player;;
          check_game_end
    end.

(** ** The document store and the API routes *)

Definition find_one (gid : string) (games : list GameState)
    : option GameState :=
  List.find (λ d, String.eqb (GameState_id d) gid) games.

Fixpoint replace_one (gid : string) (doc : GameState)
    (games : list GameState) : list GameState :=
  match games with
  | [] => []
  | d :: rest =>
      if String.eqb (GameState_id d) gid then doc :: rest
      else d :: replace_one gid doc rest
  end.

Definition insert_one (doc : GameState) (games : list GameState)
    : list GameState :=
  games ++ [doc].

Definition create_game (uuid : nat → string) (now : Z) (rnd : nat → nat)
    (request : CreateGameRequest) (games : list GameState)
    : GameState * list GameState :=
  let game_state := mkGameState (uuid O) WAITING [] [] [] 0 0 now None 0 in
  let human_player :=
    mkPlayer (uuid 1%nat) (player_name request) HUMAN [] 0 true in
  let game_state := set_players (players game_state ++ [human_player]) game_state in
  let n := Z.to_nat (num_ai_players request) in
  let game_state :=
    foldl (λ g i,
        let ai_player :=
          mkPlayer (uuid (2 + i)%nat) ("AI Player " +:+ pretty (i + 1)%nat)
            AI [] 0 true in
        set_players (players g ++ [ai_player]) g)
      game_state (seq 0 n) in
  let game_state :=
    set_remaining_tiles
      (create_all_tiles (λ j, uuid (2 + n + j)%nat) rnd) game_state in
  let game_state := deal_initial_hands game_state in
  let game_state := place_initial_tile game_state in
  let game_state := set_status IN_PROGRESS game_state in
  (game_state, insert_one game_state games).

Definition perform_action (rnd : nat → nat) (request : GameActionRequest)
    (games : list GameState) : result GameState * list GameState :=
  match find_one (game_id request) games with
  | None => (Raise (HTTPException 404 "Game not found"), games)
  | Some game_state =>
      match apply_action rnd (action request) game_state with
      | (Return _, game_state') =>
          (Return game_state', replace_one (game_id request) game_state' games)
      | (Raise e, _) => (Raise e, games)
      end
  end.

Definition get_game (gid : string) (games : list GameState)
    : result GameState :=
  match find_one gid games with
  | None => Raise (HTTPException 404 "Game not found")
  | Some game_data => Return game_data
  end.

(** The answer of [get_tile_types]: a dict with the three constants. *)
Record TileTypes := mkTileTypes {
  shapes : list string;
  colors : list string;
  tiles_per_type : nat
}.

Definition get_tile_types : TileTypes :=
  mkTileTypes SHAPES COLORS TILES_PER_TYPE.

(** * Vocabulary of the properties *)

(** ** The tile pool *)

(** Number of tiles of one (shape, color) type in a sequence of tiles. *)
Definition count_type (sh co : string) (l : list Tile) : nat :=
  length (filter (λ t, shape t = sh ∧ color t = co) l).

(** ** Placement *)

(** A position is occupied when some placed tile of the board sits on it. *)
Definition occupied (pos : Position) (b : list PlacedTile) : Prop :=
  ∃ pt, pt ∈ b ∧ position pt = pos.

(** The tile standing on a position: the placed tile of the board with that
    position (the one appended last, should the sequence hold several). *)
Definition tile_at (pos : Position) (b : list PlacedTile) : option PlacedTile :=
  last (filter (λ pt, position pt = pos) b).

(** The four orthogonal neighbors: up, down, left, right. *)
Definition orthogonal_neighbors (pos : Position) : list Position :=
  [mkPosition (row pos - 1) (col pos); mkPosition (row pos + 1) (col pos);
   mkPosition (row pos) (col pos - 1); mkPosition (row pos) (col pos + 1)].

Definition shares_attribute (t t' : Tile) : Prop :=
  color t = color t' ∨ shape t = shape t'.

(** What [validate_tile_placement] accepts. *)
Definition placement_ok (t : Tile) (pos : Position) (b : list PlacedTile) : Prop :=
  ¬ occupied pos b
  ∧ (b = [] ∨ ∃ n, n ∈ orthogonal_neighbors pos ∧ occupied n b)
  ∧ (∀ n pt, n ∈ orthogonal_neighbors pos → tile_at n b = Some pt →
       shares_attribute t (tile pt)).

(** ** Scoring *)

(** Number of board tiles in the row (column) of a position. *)
Definition row_count (pos : Position) (b : list PlacedTile) : nat :=
  length (filter (λ pt, row (position pt) = row pos) b).
Definition col_count (pos : Position) (b : list PlacedTile) : nat :=
  length (filter (λ pt, col (position pt) = col pos) b).

(** The tally of one placed tile: its row and its column, each counted
    with the new tile itself. *)
Definition tally (b : list PlacedTile) (tp : Tile * Position) : nat :=
  ((row_count tp.2 b + 1) + (col_count tp.2 b + 1))%nat.

(** A board is a pre-placement board for an action when none of the
    action's positions is occupied on it (what validation checks). *)
Definition pre_placement (b : list PlacedTile)
    (placed : list (Tile * Position)) : Prop :=
  ∀ tp, tp ∈ placed → ¬ occupied tp.2 b.

(** ** The place action *)

(** The hand after the removal loop; [None] when some tile is not held. *)
Fixpoint remove_tiles (ts : list Tile) (h : list Tile) : option (list Tile) :=
  match ts with
  | [] => Some h
  | t :: ts' =>
      match py_next (same_type t) h with
      | None => None
      | Some tile_in_hand =>
          match py_remove tile_in_hand h with
          | None => None
          | Some h' => remove_tiles ts' h'
          end
      end
  end.

(** The local state a successful [place] branch ends in, for the acting
    player [p] in slot [k] and the hand [h1] left by the removal loop. *)
Definition place_outcome (k : nat) (p : Player) (ts : list Tile)
    (ps : list Position) (h1 : list Tile) (g : GameState) : GameState :=
  let pairs := zip ts ps in
  let b1 :=
    board g
    ++ map (λ tp, mkPlacedTile tp.1 tp.2 (Player_id p) (turn_number g)) pairs in
  let sc := calculate_score pairs (py_drop_last (length ts) b1) in
  let n := (length ts `min` length (remaining_tiles g))%nat in
  let h2 := h1 ++ take n (remaining_tiles g) in
  let used_all := bool_decide (h2 = []) in
  mkGameState (GameState_id g)
    (if used_all then FINISHED else status g)
    (<[k := mkPlayer (Player_id p) (name p) (player_type p) h2
              (if used_all then score p + sc + 6 else score p + sc)
              (is_active p)]> (players g))
    b1 (drop n (remaining_tiles g)) (current_player_index g) (turn_number g)
    (created_at g)
    (if used_all then Some (Player_id p) else winner_id g) 0.

Definition all_valid (pairs : list (Tile * Position)) (b : list PlacedTile)
    : bool :=
  forallb (λ tp, validate_tile_placement tp.1 tp.2 b) pairs.

(** ** Tile count and reachable states *)

Definition hand_total (ps : list Player) : nat :=
  sum_list_with (λ p, length (hand p)) ps.

(** Tiles in the players' hands, on the board and in the draw pile. *)
Definition tile_total (g : GameState) : nat :=
  (hand_total (players g) + length (board g) + length (remaining_tiles g))%nat.

(** A place action is well formed when its two sequences are parallel. *)
Definition parallel_payload (a : GameAction) : Prop :=
  action_type a = PLACE →
  ∀ ts ps, tiles a = Some ts → positions a = Some ps → length ts = length ps.

(** States a game goes through: created by [create_game], then changed by
    successful calls of [perform_action] whose action satisfies [ok]. *)
Inductive reachable_by (ok : GameAction → Prop) : GameState → Prop :=
  | reachable_create uuid now rnd request games :
      reachable_by ok (create_game uuid now rnd request games).1
  | reachable_action rnd request games g g' games' :
      reachable_by ok g →
      find_one (game_id request) games = Some g →
      ok (action request) →
      perform_action rnd request games = (Return g', games') →
      reachable_by ok g'.

Definition reachable : GameState → Prop := reachable_by (λ _, True).

(** The positions held by the placed tiles of a board, in board order. *)
Definition board_positions (b : list PlacedTile) : list Position :=
  map position b.

(** A place action whose (tile, position) pairs name pairwise distinct
    positions. *)
Definition distinct_positions (a : GameAction) : Prop :=
  action_type a = PLACE →
  ∀ ts ps, tiles a = Some ts → positions a = Some ps →
           NoDup (map snd (zip ts ps)).

(** ** Concrete games *)

(** A game as [create_game] returns it for one human ("A") and one AI
    player, when every draw of the shuffle is [j = i] (the pool keeps its
    creation order) and the n-th identifier generated is "u<n>". Both hands
    hold six star/red tiles, a star/red tile lies on (0,0), and 1067 tiles
    remain. *)
Definition demo_uuid (n : nat) : string := "u" +:+ pretty n.
Definition identity_draws (i : nat) : nat := i.
Definition demo_game : GameState :=
  (create_game demo_uuid 0 identity_draws (mkCreateGameRequest "A" 1) []).1.
Definition star_red : Tile := mkTile "star" "red" "x".
Definition star_blue : Tile := mkTile "star" "blue" "y".
Definition star_green : Tile := mkTile "star" "green" "z".
Definition referee_tile : PlacedTile :=
  mkPlacedTile (mkTile "star" "red" "t0") (mkPosition 0 0) "referee" 0.

(** A game created for 180 players. *)
Definition crowded_game : GameState :=
  (create_game demo_uuid 0 identity_draws (mkCreateGameRequest "A" 179) []).1.

(** Two place actions of the human on [demo_game]: two tiles on one
    position, and two tiles with a single position. *)
Definition stacking_request : GameActionRequest :=
  mkGameActionRequest "u0"
    (mkGameAction PLACE "u1" (Some [star_red; star_red])
       (Some [mkPosition 0 1; mkPosition 0 1])).
Definition short_request : GameActionRequest :=
  mkGameActionRequest "u0"
    (mkGameAction PLACE "u1" (Some [star_red; star_red])
       (Some [mkPosition 0 1])).

Definition returned (r : result GameState * list GameState) (d : GameState)
    : GameState :=
  match r.1 with
  | Return g => g
  | Raise _ => d
  end.

(** [demo_game] after each of the two actions. *)
Definition stacked_game : GameState :=
  returned (perform_action identity_draws stacking_request [demo_game])
    demo_game.
Definition short_game : GameState :=
  returned (perform_action identity_draws short_request [demo_game])
    demo_game.

(** A late game: the pile is empty, one pass has been made, player "p1" is
    to move, both players have 5 points and one tile. *)
Definition late_p1 : Player :=
  mkPlayer "p1" "A" HUMAN [mkTile "star" "red" "t1"] 5 true.
Definition late_p2 : Player :=
  mkPlayer "p2" "AI Player 1" AI [mkTile "circle" "blue" "t2"] 5 true.
Definition late_game : GameState :=
  mkGameState "g" IN_PROGRESS [late_p1; late_p2] [referee_tile]
    [] 0 7 0 None 1.

(** "p1" once the last tile is placed: 5 points, 4 for the placement, 6
    for the empty hand. *)
Definition late_p1_done : Player := mkPlayer "p1" "A" HUMAN [] 15 true.

(** "p1" tries a tile that is held and one that is not. *)
Definition unheld_action : GameAction :=
  mkGameAction PLACE "p1" (Some [star_red; star_blue])
    (Some [mkPosition 0 1; mkPosition 1 0]).

Definition late_request (ty : ActionType) (who : string)
    (ts : option (list Tile)) (ps : option (list Position))
    : GameActionRequest :=
  mkGameActionRequest "g" (mkGameAction ty who ts ps).

Definition late_passed : GameState :=
  returned (perform_action identity_draws (late_request PASS "p1" None None)
              [late_game]) late_game.

Definition late_placed : GameState :=
  returned (perform_action identity_draws
              (late_request PLACE "p1" (Some [star_red])
                 (Some [mkPosition 0 1])) [late_game]) late_game.

Definition late_exchanged : GameState :=
  returned (perform_action identity_draws
              (late_request EXCHANGE "p1" None None) [late_game]) late_game.

(** ** Tiles by type, over a whole game *)


(** The states of a game that has started: not waiting, the player to move
    determined by the turn number, fewer passes in a row than players while
    in progress, a winner exactly when finished, hands of at most six
    tiles, no negative score. *)
Record well_formed (g : GameState) : Prop := {
  wf_players : players g ≠ [];
  wf_index : 0 ≤ current_player_index g < Z.of_nat (length (players g));
  wf_turn : 0 ≤ turn_number g
            ∧ current_player_index g
              = turn_number g `mod` Z.of_nat (length (players g));
  wf_passes : 0 ≤ consecutive_passes g ≤ Z.of_nat (length (players g));
  wf_in_progress :
    status g = IN_PROGRESS →
    consecutive_passes g < Z.of_nat (length (players g))
    ∧ winner_id g = None;
  wf_finished :
    status g ≠ IN_PROGRESS →
    status g = FINISHED
    ∧ ∃ p, p ∈ players g ∧ winner_id g = Some (Player_id p);
  wf_hands : ∀ p, p ∈ players g → (length (hand p) ≤ INITIAL_HAND_SIZE)%nat;
  wf_scores : ∀ p, p ∈ players g → 0 ≤ score p
}.

(** ** The players of a new game, and tile ids in order of creation *)

(** The players [create_game] builds before it deals: the human, then the
    AI players in the order of the loop. *)
Definition ai_player (uuid : nat → string) (i : nat) : Player :=
  mkPlayer (uuid (2 + i)%nat) ("AI Player " +:+ pretty (i + 1)%nat) AI [] 0 true.

Definition initial_players (uuid : nat → string) (request : CreateGameRequest)
    : list Player :=
  mkPlayer (uuid 1%nat) (player_name request) HUMAN [] 0 true
  :: map (ai_player uuid) (seq 0 (Z.to_nat (num_ai_players request))).

(** While the pool is built, the tiles made so far carry the identifiers
    drawn so far, in order. *)
Definition ids_in_order (uuid : nat → string) (acc : list Tile * nat) : Prop :=
  map Tile_id acc.1 = map uuid (seq 0 acc.2).

(** The human of [demo_game], and the requests used on [late_game]. *)
Definition demo_human : Player := hd late_p1 (players demo_game).
Definition late_pass : GameActionRequest := late_request PASS "p1" None None.
Definition late_exchange : GameActionRequest :=
  late_request EXCHANGE "p1" None None.
Definition late_place : GameActionRequest :=
  late_request PLACE "p1" (Some [star_red]) (Some [mkPosition 0 1]).
Definition late_intruder : GameActionRequest :=
  late_request PASS "p2" None None.

(** * Properties *)

(** ** [random.shuffle] rearranges its argument *)

Section shuffle_facts.
Context {A : Type}.
Implicit Types (x : list A) (i j : nat).

Lemma delete_insert_same x i (a : A) : delete i (<[i := a]> x) = delete i x.
Proof.
  revert i. induction x as [|b x IH]; intros [|i]; simpl; try done.
  by rewrite IH.
Qed.

Lemma insert_Permutation x i (a b : A) :
  x !! i = Some a → <[i := b]> x ≡ₚ b :: delete i x.
Proof.
  intros Hi.
  assert (Hlt : (i < length x)%nat) by (by eapply lookup_lt_Some).
  rewrite <- (delete_insert_same x i b).
  apply delete_Permutation. by apply list_lookup_insert_eq.
Qed.

Lemma swap_Permutation x i j : swap x i j ≡ₚ x.
Proof.
  unfold swap.
  destruct (x !! i) as [a|] eqn:Hi; [|done].
  destruct (x !! j) as [b|] eqn:Hj; [|done].
  destruct (decide (i = j)) as [->|Hne].
  - assert (a = b) as -> by congruence.
    rewrite list_insert_insert_eq. by rewrite list_insert_id.
  - set (x1 := <[i := b]> x).
    assert (H1 : x1 !! j = Some b)
      by (unfold x1; by rewrite list_lookup_insert_ne).
    assert (H2 : x1 ≡ₚ b :: delete i x) by (by eapply insert_Permutation).
    assert (H3 : x1 ≡ₚ b :: delete j x1) by (by apply delete_Permutation).
    rewrite (insert_Permutation x1 j b a H1).
    rewrite (delete_Permutation x i a Hi).
    constructor. eapply Permutation_cons_inv.
    by rewrite <- H3, <- H2.
Qed.

Lemma shuffle_loop_Permutation rnd i x : shuffle_loop rnd i x ≡ₚ x.
Proof.
  revert x. induction i as [|i IH]; intros x; simpl; [done|].
  rewrite IH. apply swap_Permutation.
Qed.

Lemma shuffle_Permutation rnd x : shuffle rnd x ≡ₚ x.
Proof. apply shuffle_loop_Permutation. Qed.

Lemma shuffle_length rnd x : length (shuffle rnd x) = length x.
Proof. by rewrite shuffle_Permutation. Qed.
End shuffle_facts.

(** ** The tile pool *)

#[global] Instance count_type_Permutation sh co :
  Proper ((≡ₚ) ==> (=)) (count_type sh co).
Proof. intros l1 l2 H. unfold count_type. by rewrite H. Qed.

Lemma unshuffled_tiles_length uuid : length (unshuffled_tiles uuid) = 1080%nat.
Proof. vm_compute. reflexivity. Qed.

Lemma unshuffled_tiles_census uuid :
  Forall (λ sh,
    Forall (λ co, count_type sh co (unshuffled_tiles uuid) = 30%nat) COLORS)
    SHAPES.
Proof.
  unfold SHAPES, COLORS.
  repeat (apply Forall_cons; split); try apply Forall_nil;
    vm_compute; reflexivity.
Qed.

Lemma create_all_tiles_length uuid rnd :
  length (create_all_tiles uuid rnd) = 1080%nat.
Proof.
  unfold create_all_tiles. by rewrite shuffle_length, unshuffled_tiles_length.
Qed.

(** C3. Whatever the generator draws during the shuffle, [create_all_tiles]
    returns 1080 tiles: for each of the 6 shapes and each of the 6 colors
    (36 distinct pairs), exactly 30 tiles of that shape and color. *)
Theorem create_all_tiles_census (uuid : nat → string) (rnd : nat → nat) :
  length (create_all_tiles uuid rnd) = 1080%nat
  ∧ length SHAPES = 6%nat ∧ NoDup SHAPES
  ∧ length COLORS = 6%nat ∧ NoDup COLORS
  ∧ ∀ sh co, sh ∈ SHAPES → co ∈ COLORS →
      count_type sh co (create_all_tiles uuid rnd) = 30%nat.
Proof.
  split; [apply create_all_tiles_length|]. unfold create_all_tiles.
  split; [done|]. split; [apply (bool_decide_unpack _); by vm_compute|].
  split; [done|]. split; [apply (bool_decide_unpack _); by vm_compute|].
  intros sh co Hsh Hco. rewrite shuffle_Permutation.
  pose proof (unshuffled_tiles_census uuid) as H.
  rewrite Forall_forall in H. specialize (H sh Hsh).
  rewrite Forall_forall in H. by apply H.
Qed.

(** ** Placement validation *)

Lemma position_eq_iff (p q : Position) :
  p = q ↔ row p = row q ∧ col p = col q.
Proof. destruct p, q; simpl. split; [by intros [= -> ->]|by intros [-> ->]]. Qed.

Lemma tile_at_Some_elem pos b pt :
  tile_at pos b = Some pt → pt ∈ b ∧ position pt = pos.
Proof.
  unfold tile_at. intros H.
  assert (Hin : pt ∈ filter (λ pt, position pt = pos) b).
  { destruct (filter _ b) as [|x l] using rev_ind; [done|].
    rewrite last_snoc in H. injection H as ->. set_solver. }
  by apply list_elem_of_filter in Hin as [? ?].
Qed.

Lemma occupied_tile_at pos b : occupied pos b ↔ is_Some (tile_at pos b).
Proof.
  split.
  - intros (pt & Hin & Hpos). unfold tile_at.
    assert (Hf : pt ∈ filter (λ pt, position pt = pos) b)
      by (by apply list_elem_of_filter).
    destruct (filter _ b) as [|x l] using rev_ind; [by apply elem_of_nil in Hf|].
    rewrite last_snoc. by eexists.
  - intros [pt H]. exists pt. by apply tile_at_Some_elem.
Qed.

Lemma board_dict_snoc b pt :
  board_dict (b ++ [pt])
  = <[(row (position pt), col (position pt)) := pt]> (board_dict b).
Proof. unfold board_dict. by rewrite foldl_app. Qed.

Lemma board_dict_lookup b r c :
  board_dict b !! (r, c) = tile_at (mkPosition r c) b.
Proof.
  induction b as [|pt b IH] using rev_ind; [done|].
  rewrite board_dict_snoc. unfold tile_at in *. rewrite filter_app.
  destruct (decide (position pt = mkPosition r c)) as [Heq|Hne].
  - rewrite filter_cons_True, filter_nil by done. rewrite last_snoc.
    rewrite Heq. simpl. by rewrite lookup_insert_eq.
  - rewrite filter_cons_False, filter_nil by done. rewrite app_nil_r.
    rewrite lookup_insert_ne; [done|].
    intros [= <- <-]. apply Hne. by destruct (position pt).
Qed.

Lemma adjacent_neighbors_tile_at pos b :
  omap snd (get_neighbors pos b)
  = omap (λ n, tile_at n b) (orthogonal_neighbors pos).
Proof.
  unfold get_neighbors, orthogonal_neighbors. simpl.
  by rewrite !board_dict_lookup.
Qed.

Lemma occupied_check pos b :
  existsb (λ placed_tile,
      (row (position placed_tile) =? row pos)
      && (col (position placed_tile) =? col pos)) b = true
  ↔ occupied pos b.
Proof.
  rewrite existsb_exists. unfold occupied.
  split; intros (pt & Hin & H); exists pt.
  - split; [by apply list_elem_of_In|].
    apply andb_true_iff in H as [?%Z.eqb_eq ?%Z.eqb_eq].
    by apply position_eq_iff.
  - split; [by apply list_elem_of_In|].
    apply position_eq_iff in H as [-> ->]. by rewrite !Z.eqb_refl.
Qed.

Lemma shares_check t t' :
  String.eqb (color t) (color t') || String.eqb (shape t) (shape t') = true
  ↔ shares_attribute t t'.
Proof.
  unfold shares_attribute. rewrite orb_true_iff, !String.eqb_eq. done.
Qed.

Lemma occupied_board_positions pos b :
  occupied pos b ↔ pos ∈ board_positions b.
Proof.
  unfold occupied, board_positions. rewrite list_elem_of_In, in_map_iff.
  split; intros (pt & H1 & H2); exists pt.
  - split; [done|by apply list_elem_of_In].
  - split; [by apply list_elem_of_In|done].
Qed.

Lemma unique_position b pt pt' :
  NoDup (board_positions b) → pt ∈ b → pt' ∈ b →
  position pt = position pt' → pt = pt'.
Proof.
  unfold board_positions.
  induction b as [|y b IH]; simpl; intros Hnd Hin Hin' Heq.
  { by apply elem_of_nil in Hin. }
  apply NoDup_cons in Hnd as [Hy Hnd].
  assert (Hocc : ∀ q, q ∈ b → position q ≠ position y).
  { intros q Hq Hpos. apply Hy. rewrite <- Hpos.
    apply (occupied_board_positions (position q) b). by exists q. }
  apply elem_of_cons in Hin as [->|Hin]; apply elem_of_cons in Hin' as [->|Hin'].
  - done.
  - exfalso. by apply (Hocc pt').
  - exfalso. by apply (Hocc pt).
  - by apply IH.
Qed.

Lemma tile_at_unique b pt :
  NoDup (board_positions b) → pt ∈ b → tile_at (position pt) b = Some pt.
Proof.
  intros Hnd Hin.
  destruct (proj1 (occupied_tile_at (position pt) b)) as [pt' Hat].
  { by exists pt. }
  rewrite Hat. f_equal.
  apply tile_at_Some_elem in Hat as [Hin' Hpos].
  by apply (unique_position b).
Qed.

Lemma validate_tile_placement_true t pos b :
  validate_tile_placement t pos b = true ↔ placement_ok t pos b.
Proof.
  unfold validate_tile_placement, placement_ok.
  rewrite adjacent_neighbors_tile_at.
  pose proof (occupied_check pos b) as Hocc.
  destruct (existsb _ b).
  { split; [done|]. intros [Hn _]. exfalso. by apply Hn, Hocc. }
  assert (Hfree : ¬ occupied pos b) by (rewrite <- Hocc; done).
  remember (omap (λ n, tile_at n b) (orthogonal_neighbors pos)) as adj eqn:E.
  assert (Hadj : ∀ pt, pt ∈ adj ↔
            ∃ n, n ∈ orthogonal_neighbors pos ∧ tile_at n b = Some pt)
    by (intros pt; subst adj; apply list_elem_of_omap).
  clear E.
  destruct (bool_decide (adj = []) && negb (bool_decide (b = []))) eqn:Hguard.
  - split; [done|]. intros (_ & Hconn & _). exfalso.
    apply andb_true_iff in Hguard as [Hnil%bool_decide_eq_true Hne].
    apply negb_true_iff, bool_decide_eq_false in Hne.
    destruct Hconn as [->|(n & Hn & Ho)]; [done|].
    apply occupied_tile_at in Ho as [pt Hpt].
    assert (pt ∈ adj) as Hin by (apply Hadj; eauto).
    rewrite Hnil in Hin. by apply elem_of_nil in Hin.
  - rewrite forallb_forall. split.
    + intros Hall. split; [done|]. split.
      * apply andb_false_iff in Hguard as [Hnn|Hb].
        -- right. apply bool_decide_eq_false in Hnn.
           destruct adj as [|pt adj']; [done|].
           destruct (Hadj pt) as [(n & Hn & Hpt) _]; [by left|].
           exists n. split; [done|]. apply occupied_tile_at. by eexists.
        -- left. apply negb_false_iff in Hb. by apply bool_decide_eq_true in Hb.
      * intros n pt Hn Hpt. apply shares_check, Hall.
        apply list_elem_of_In, Hadj. eauto.
    + intros (_ & _ & Hall) pt Hin%list_elem_of_In.
      apply Hadj in Hin as (n & Hn & Hpt). apply shares_check. eauto.
Qed.

(** C1. [validate_tile_placement] rejects an occupied position; rejects a
    position none of whose four orthogonal neighbors is occupied when the
    board is not empty; rejects when the tile standing on some orthogonal
    neighbor shares neither color nor shape with the candidate (on a board
    with one tile per position: when any placed tile on an orthogonal
    neighbor shares neither); and accepts in every other case -- so on an
    empty board every (necessarily free) position is accepted. *)
Theorem validate_tile_placement_spec (t : Tile) (pos : Position)
    (b : list PlacedTile) :
  (occupied pos b → validate_tile_placement t pos b = false)
  ∧ (b ≠ [] → (∀ n, n ∈ orthogonal_neighbors pos → ¬ occupied n b) →
       validate_tile_placement t pos b = false)
  ∧ ((∃ n pt, n ∈ orthogonal_neighbors pos ∧ tile_at n b = Some pt
        ∧ ¬ shares_attribute t (tile pt)) →
       validate_tile_placement t pos b = false)
  ∧ (NoDup (board_positions b) →
     (∃ pt, pt ∈ b ∧ position pt ∈ orthogonal_neighbors pos
        ∧ ¬ shares_attribute t (tile pt)) →
     validate_tile_placement t pos b = false)
  ∧ (¬ occupied pos b →
     (b = [] ∨ ∃ n, n ∈ orthogonal_neighbors pos ∧ occupied n b) →
     (∀ n pt, n ∈ orthogonal_neighbors pos → tile_at n b = Some pt →
        shares_attribute t (tile pt)) →
     validate_tile_placement t pos b = true)
  ∧ validate_tile_placement t pos [] = true.
Proof.
  pose proof (validate_tile_placement_true t pos b) as Hiff.
  split; [|split; [|split; [|split; [|split]]]].
  - intros Ho. apply not_true_is_false. rewrite Hiff. intros [Hn _]. done.
  - intros Hne Hnone. apply not_true_is_false. rewrite Hiff.
    intros (_ & [->|(n & Hn & Ho)] & _); [done|]. by eapply Hnone.
  - intros (n & pt & Hn & Hpt & Hns). apply not_true_is_false. rewrite Hiff.
    intros (_ & _ & Hall). apply Hns. eauto.
  - intros Hnd (pt & Hin & Hn & Hns). apply not_true_is_false. rewrite Hiff.
    intros (_ & _ & Hall). apply Hns, (Hall (position pt)); [done|].
    by apply tile_at_unique.
  - intros ???. by apply Hiff.
  - apply validate_tile_placement_true. split; [|split].
    + intros (pt & Hin & _). by apply elem_of_nil in Hin.
    + by left.
    + intros n pt _ Hpt. apply tile_at_Some_elem in Hpt as [Hin _].
      by apply elem_of_nil in Hin.
Qed.

(** ** Scoring *)

Lemma row_tiles_Permutation t pos b :
  row_tiles t pos b
  ≡ₚ filter (λ pt, row (position pt) = row pos) b ++ [mkPlacedTile t pos "temp" 0].
Proof. unfold row_tiles. apply merge_sort_Permutation. Qed.

Lemma col_tiles_Permutation t pos b :
  col_tiles t pos b
  ≡ₚ filter (λ pt, col (position pt) = col pos) b ++ [mkPlacedTile t pos "temp" 0].
Proof. unfold col_tiles. apply merge_sort_Permutation. Qed.

Lemma row_tiles_length t pos b :
  length (row_tiles t pos b) = (row_count pos b + 1)%nat.
Proof. by rewrite row_tiles_Permutation, length_app. Qed.

Lemma col_tiles_length t pos b :
  length (col_tiles t pos b) = (col_count pos b + 1)%nat.
Proof. by rewrite col_tiles_Permutation, length_app. Qed.

Lemma score_loop placed b (acc : Z) :
  foldl (λ score tp,
      score + Z.of_nat (length (row_tiles tp.1 tp.2 b))
            + Z.of_nat (length (col_tiles tp.1 tp.2 b))) acc placed
  = acc + Z.of_nat (sum_list_with (tally b) placed).
Proof.
  revert acc. induction placed as [|tp placed IH]; intros acc; simpl.
  - lia.
  - rewrite IH, row_tiles_length, col_tiles_length. unfold tally. lia.
Qed.

Lemma calculate_score_formula placed b :
  calculate_score placed b
  = Z.of_nat (length placed) + Z.of_nat (sum_list_with (tally b) placed).
Proof. unfold calculate_score. apply score_loop. Qed.

Lemma tallied_tile t pos b pt :
  pt ∈ row_tiles t pos b ∨ pt ∈ col_tiles t pos b →
  pt ∈ b ∨ pt = mkPlacedTile t pos "temp" 0.
Proof.
  rewrite row_tiles_Permutation, col_tiles_Permutation.
  rewrite !elem_of_app, !list_elem_of_filter, !list_elem_of_singleton.
  tauto.
Qed.

Lemma calculate_score_app p1 p2 b :
  calculate_score (p1 ++ p2) b = calculate_score p1 b + calculate_score p2 b.
Proof.
  rewrite !calculate_score_formula, length_app, sum_list_with_app. lia.
Qed.

(** C4, as stated, does not hold: the tally of a placed tile never
    contains another tile of the same action. With a tile on (0,0) and two
    tiles placed on (0,1) and (0,2) -- one row -- the tally of the first
    holds the board's tile and the first tile only, and the score is
    2 + (2 + 1) + (2 + 1) = 8; for no pre-placement board and no action does
    the row or column sequence built for one of the placed tiles hold a tile
    on the position of another tile of the action. *)
Lemma same_action_tiles_not_tallied :
  calculate_score
    [(star_blue, mkPosition 0 1); (star_green, mkPosition 0 2)] [referee_tile]
  = 8
  ∧ row_tiles star_blue (mkPosition 0 1) [referee_tile]
    = [referee_tile; mkPlacedTile star_blue (mkPosition 0 1) "temp" 0]
  ∧ col_tiles star_blue (mkPosition 0 1) [referee_tile]
    = [mkPlacedTile star_blue (mkPosition 0 1) "temp" 0]
  ∧ ¬ ∃ placed b t pos t' pos' pt,
        pre_placement b placed
        ∧ (t, pos) ∈ placed ∧ (t', pos') ∈ placed ∧ pos' ≠ pos
        ∧ (row pos' = row pos ∨ col pos' = col pos)
        ∧ (pt ∈ row_tiles t pos b ∨ pt ∈ col_tiles t pos b)
        ∧ position pt = pos'.
Proof.
  split; [by vm_compute|]. split; [by vm_compute|].
  split; [by vm_compute|].
  intros (placed & b & t & pos & t' & pos' & pt
          & Hpre & _ & Hin' & Hne & _ & Htally & Hpos).
  apply tallied_tile in Htally as [Hb| ->].
  - apply (Hpre (t', pos') Hin'). by exists pt.
  - by apply Hne.
Qed.

(** C4, amended. [calculate_score] returns the number of tiles placed plus,
    for each placed tile, the number of board tiles in its row plus one and
    the number of board tiles in its column plus one: the new tile itself is
    counted in its row and again in its column (a single tile on an empty
    board scores 3). The sequences counted hold tiles of the given board and
    the new tile only, never another tile of the same action, so the score
    of an action is the sum of the scores of its parts. *)
Theorem calculate_score_spec (placed placed' : list (Tile * Position))
    (b : list PlacedTile) :
  calculate_score placed b
  = Z.of_nat (length placed) + Z.of_nat (sum_list_with (tally b) placed)
  ∧ (∀ t pos,
       length (row_tiles t pos b) = (row_count pos b + 1)%nat
       ∧ length (col_tiles t pos b) = (col_count pos b + 1)%nat
       ∧ mkPlacedTile t pos "temp" 0 ∈ row_tiles t pos b
       ∧ mkPlacedTile t pos "temp" 0 ∈ col_tiles t pos b
       ∧ calculate_score [(t, pos)] [] = 3)
  ∧ (∀ t pos pt,
       pt ∈ row_tiles t pos b ∨ pt ∈ col_tiles t pos b →
       pt ∈ b ∨ pt = mkPlacedTile t pos "temp" 0)
  ∧ calculate_score (placed ++ placed') b
    = calculate_score placed b + calculate_score placed' b.
Proof.
  split; [apply calculate_score_formula|].
  split; [|split; [intros t pos pt; apply tallied_tile|apply calculate_score_app]].
  intros t pos.
  split; [apply row_tiles_length|]. split; [apply col_tiles_length|].
  rewrite row_tiles_Permutation, col_tiles_Permutation.
  rewrite !elem_of_app, !list_elem_of_singleton.
  split; [by right|]. split; [by right|]. by vm_compute.
Qed.

(** ** Running the handler *)

Arguments update_player : simpl never.

Lemma alter_at {A} (f : A → A) (l : list A) k x :
  l !! k = Some x → alter f k l = <[k := f x]> l.
Proof.
  revert k. induction l as [|y l IH]; intros [|k] H; simpl in *; try done.
  - by injection H as ->.
  - f_equal. by apply IH.
Qed.

Lemma alter_insert_same {A} (f : A → A) (l : list A) k x :
  (k < length l)%nat → alter f k (<[k := x]> l) = <[k := f x]> l.
Proof.
  intros Hlt. rewrite (alter_at f _ k x) by (by apply list_lookup_insert_eq).
  by rewrite list_insert_insert_eq.
Qed.

Lemma update_player_at k f g p :
  players g !! k = Some p →
  update_player k f g = set_players (<[k := f p]> (players g)) g.
Proof. intros H. unfold update_player. by rewrite (alter_at _ _ _ _ H). Qed.

Lemma bind_Return {A B} (m : M A) (f : A → M B) g b g' :
  (m ≫= f) g = (Return b, g') →
  ∃ a g1, m g = (Return a, g1) ∧ f a g1 = (Return b, g').
Proof.
  unfold mbind, M_bind. destruct (m g) as [[a|e] g1]; [eauto|done].
Qed.

Lemma py_index_lt n i k : py_index n i = Some k → (k < n)%nat.
Proof.
  unfold py_index. repeat case_bool_decide; intros [= <-]; lia.
Qed.

Lemma set_hand_same p : set_hand (hand p) p = p.
Proof. by destruct p. Qed.

Lemma set_players_same g : set_players (players g) g = g.
Proof. by destruct g. Qed.

(** *** Exchange *)

Lemma exchange_run rnd k g p :
  players g !! k = Some p →
  exchange rnd k g =
    (Return (),
     let pile := shuffle rnd (remaining_tiles g ++ hand p) in
     let n := (length (hand p) `min` length pile)%nat in
     mkGameState (GameState_id g) (status g)
       (<[k := set_hand (take n pile) p]> (players g)) (board g)
       (drop n pile) (current_player_index g) (turn_number g) (created_at g)
       (winner_id g) 0).
Proof.
  intros Hp. unfold exchange, current, mbind, M_bind, modify, get. simpl.
  rewrite Hp. simpl. by erewrite update_player_at by (simpl; exact Hp).
Qed.

(** *** Place: the validation loop *)

Lemma validate_loop (l : list (nat * (Tile * Position))) g :
  for_each validate_step l g
  = match List.find
            (λ itp, negb (validate_tile_placement itp.2.1 itp.2.2 (board g))) l
    with
    | None => (Return (), g)
    | Some itp =>
        (Raise (HTTPException 400
                  ("Invalid placement for tile " +:+ pretty itp.1)), g)
    end.
Proof.
  induction l as [|itp l IH]; [done|]. simpl.
  unfold mbind, M_bind, validate_step at 1, get, mbind, M_bind. simpl.
  destruct (validate_tile_placement _ _ _); simpl; [apply IH|done].
Qed.

Lemma find_enumerate_None {A} (f : A → bool) (l : list A) :
  List.find (λ ix, negb (f ix.2)) (enumerate l) = None
  ↔ forallb f l = true.
Proof.
  unfold enumerate. generalize O.
  induction l as [|x l IH]; intros i; simpl; [done|].
  destruct (f x); simpl; [apply IH|]. split; done.
Qed.

(** *** Place: taking the tiles out of the hand *)

Lemma py_remove_found (f : Tile → bool) h x :
  py_next f h = Some x →
  ∃ h', py_remove x h = Some h' ∧ length h = S (length h').
Proof.
  unfold py_next. induction h as [|y h IH]; simpl; [done|].
  destruct (f y) eqn:Hf.
  - intros [= ->]. rewrite decide_True by done. eauto.
  - intros Hx. destruct (IH Hx) as (h' & -> & Hlen).
    destruct (decide (y = x)); eexists; split; try done; simpl; lia.
Qed.

Lemma remove_tiles_length ts h h' :
  remove_tiles ts h = Some h' → length h = (length ts + length h')%nat.
Proof.
  revert h. induction ts as [|t ts IH]; intros h; simpl.
  - by intros [= ->].
  - destruct (py_next _ h) as [x|] eqn:Hx; [|done].
    destruct (py_remove_found _ _ _ Hx) as (h1 & -> & Hlen).
    intros H%IH. lia.
Qed.

Lemma remove_loop k ts g p h' :
  players g !! k = Some p →
  remove_tiles ts (hand p) = Some h' →
  for_each (remove_from_hand k) ts g
  = (Return (), set_players (<[k := set_hand h' p]> (players g)) g).
Proof.
  revert g p. induction ts as [|t ts IH]; intros g p Hp; simpl.
  - intros [= <-]. by rewrite set_hand_same, list_insert_id, set_players_same.
  - destruct (py_next _ (hand p)) as [x|] eqn:Hx; [|done].
    destruct (py_remove x (hand p)) as [h1|] eqn:Hr; [|done].
    intros Hrest.
    unfold mbind, M_bind, remove_from_hand at 1, current, mbind, M_bind, modify.
    rewrite Hp, Hx, Hr. erewrite update_player_at by done.
    assert (Hlt : (k < length (players g))%nat) by (by eapply lookup_lt_Some).
    erewrite (IH _ (set_hand h1 p)); simpl.
    + by rewrite list_insert_insert_eq.
    + by apply list_lookup_insert_eq.
    + done.
Qed.

Lemma remove_loop_fail k ts g p :
  players g !! k = Some p →
  remove_tiles ts (hand p) = None →
  (for_each (remove_from_hand k) ts g).1
  = Raise (HTTPException 400 "Tile not in hand").
Proof.
  revert g p. induction ts as [|t ts IH]; intros g p Hp; simpl; [done|].
  unfold mbind, M_bind, remove_from_hand at 1, current, mbind, M_bind, modify.
  rewrite Hp.
  destruct (py_next _ (hand p)) as [x|] eqn:Hx; [|done].
  destruct (py_remove_found _ _ _ Hx) as (h1 & -> & _).
  intros Hrest. erewrite update_player_at by done.
  assert (Hlt : (k < length (players g))%nat) by (by eapply lookup_lt_Some).
  apply (IH _ (set_hand h1 p)); [by apply list_lookup_insert_eq|done].
Qed.

(** *** Place: appending to the board *)

Lemma place_loop k pairs g p :
  players g !! k = Some p →
  for_each (place_on_board k) pairs g
  = (Return (),
     set_board
       (board g
        ++ map (λ tp, mkPlacedTile tp.1 tp.2 (Player_id p) (turn_number g))
             pairs) g).
Proof.
  revert g. induction pairs as [|tp pairs IH]; intros g Hp; simpl.
  - rewrite app_nil_r. by destruct g.
  - unfold mbind, M_bind, place_on_board at 1, current, mbind, M_bind, modify.
    rewrite Hp. rewrite IH by done. simpl. by rewrite <- app_assoc.
Qed.

(** *** Place: the whole branch *)

Lemma place_run k a g p ts ps h1 :
  players g !! k = Some p →
  tiles a = Some ts → positions a = Some ps → ts ≠ [] → ps ≠ [] →
  all_valid (zip ts ps) (board g) = true →
  remove_tiles ts (hand p) = Some h1 →
  place k a g = (Return (), place_outcome k p ts ps h1 g).
Proof.
  intros Hp Hts Hps Hts0 Hps0 Hval Hrem.
  assert (Hlt : (k < length (players g))%nat) by (by eapply lookup_lt_Some).
  unfold place. rewrite Hts, Hps.
  rewrite !bool_decide_eq_false_2 by done. simpl.
  unfold mbind at 1, M_bind at 1. rewrite validate_loop.
  apply (find_enumerate_None (λ tp, validate_tile_placement tp.1 tp.2 (board g)))
    in Hval. rewrite Hval.
  unfold mbind at 1, M_bind at 1. rewrite (remove_loop k ts g p h1 Hp Hrem).
  set (g1 := set_players _ g).
  assert (Hp1 : players g1 !! k = Some (set_hand h1 p))
    by (by apply list_lookup_insert_eq).
  unfold mbind at 1, M_bind at 1. rewrite (place_loop k _ g1 _ Hp1).
  unfold mbind, M_bind, get, modify, current, update_player. simpl.
  rewrite !alter_insert_same by done.
  rewrite list_lookup_insert_eq by done. simpl.
  unfold place_outcome. simpl.
  case_bool_decide; simpl; [|done].
  by rewrite alter_insert_same by done.
Qed.

Lemma place_Return k a g p g' :
  players g !! k = Some p →
  place k a g = (Return (), g') →
  ∃ ts ps h1,
    tiles a = Some ts ∧ positions a = Some ps ∧ ts ≠ [] ∧ ps ≠ []
    ∧ all_valid (zip ts ps) (board g) = true
    ∧ remove_tiles ts (hand p) = Some h1
    ∧ g' = place_outcome k p ts ps h1 g.
Proof.
  intros Hp Hrun.
  destruct (tiles a) as [ts|] eqn:Hts; [|by unfold place in Hrun; rewrite Hts in Hrun].
  destruct (positions a) as [ps|] eqn:Hps;
    [|by unfold place in Hrun; rewrite Hts, Hps in Hrun].
  destruct (decide (ts = [])) as [->|Hts0];
    [by unfold place in Hrun; rewrite Hts, Hps in Hrun|].
  destruct (decide (ps = [])) as [->|Hps0].
  { unfold place in Hrun. rewrite Hts, Hps in Hrun.
    by rewrite bool_decide_eq_false_2 in Hrun by done. }
  destruct (all_valid (zip ts ps) (board g)) eqn:Hval.
  - destruct (remove_tiles ts (hand p)) as [h1|] eqn:Hrem.
    + exists ts, ps, h1. repeat (split; [done|]).
      rewrite (place_run k a g p ts ps h1) in Hrun by done. congruence.
    + exfalso. unfold place in Hrun. rewrite Hts, Hps in Hrun.
      rewrite !bool_decide_eq_false_2 in Hrun by done. simpl in Hrun.
      unfold mbind at 1, M_bind at 1 in Hrun. rewrite validate_loop in Hrun.
      apply (find_enumerate_None
               (λ tp, validate_tile_placement tp.1 tp.2 (board g))) in Hval.
      rewrite Hval in Hrun.
      unfold mbind at 1, M_bind at 1 in Hrun.
      pose proof (remove_loop_fail k ts g p Hp Hrem) as Hfail.
      destruct (for_each (remove_from_hand k) ts g) as [[[]|e] g1]; done.
  - exfalso. unfold place in Hrun. rewrite Hts, Hps in Hrun.
    rewrite !bool_decide_eq_false_2 in Hrun by done. simpl in Hrun.
    unfold mbind at 1, M_bind at 1 in Hrun. rewrite validate_loop in Hrun.
    destruct (List.find _ (enumerate (zip ts ps))) as [itp|] eqn:Hfind; [done|].
    apply (find_enumerate_None
             (λ tp, validate_tile_placement tp.1 tp.2 (board g))) in Hfind.
    unfold all_valid in Hval. congruence.
Qed.

(** *** After the action: turn advance and end check *)

Lemma next_player_run g :
  players g ≠ [] →
  next_player g
  = (Return (),
     set_turn_number (turn_number g + 1)
       (set_current_player_index
          ((current_player_index g + 1) `mod` Z.of_nat (length (players g))) g)).
Proof.
  intros Hne. unfold next_player, mbind, M_bind, get, modify.
  by rewrite bool_decide_eq_false_2 by done.
Qed.

Lemma check_game_end_run g :
  check_game_end g
  = if bool_decide (Z.of_nat (length (players g)) ≤ consecutive_passes g) then
      match py_max score (players g) with
      | Some winner =>
          (Return (),
           set_winner_id (Some (Player_id winner)) (set_status FINISHED g))
      | None => (Raise ValueError, set_status FINISHED g)
      end
    else (Return (), g).
Proof.
  unfold check_game_end, mbind, M_bind, get, modify.
  case_bool_decide; [|done]. simpl. by destruct (py_max score (players g)).
Qed.

(** What a successful run of [apply_action] went through. *)
Lemma apply_action_Return rnd a g g' :
  apply_action rnd a g = (Return (), g') →
  status g = IN_PROGRESS
  ∧ ∃ k p g1 g2,
      py_index (length (players g)) (current_player_index g) = Some k
      ∧ players g !! k = Some p
      ∧ player_id a = Player_id p
      ∧ match action_type a with
        | PASS => g1 = set_consecutive_passes (consecutive_passes g + 1) g
        | EXCHANGE => exchange rnd k g = (Return (), g1)
        | PLACE => place k a g = (Return (), g1)
        end
      ∧ next_player g1 = (Return (), g2)
      ∧ check_game_end g2 = (Return (), g').
Proof.
  unfold apply_action. unfold mbind at 1, M_bind at 1, get at 1.
  case_bool_decide as Hst; [done|].
  assert (status g = IN_PROGRESS) by (by destruct (decide (status g = IN_PROGRESS))).
  destruct (py_index _ _) as [k|] eqn:Hk; [|done].
  intros (p & g0 & Hcur & Hrest)%bind_Return.
  unfold current in Hcur.
  destruct (players g !! k) as [p'|] eqn:Hp; [|done].
  injection Hcur as -> ->.
  case_bool_decide as Hid; [done|].
  assert (player_id a = Player_id p)
    by (by destruct (decide (player_id a = Player_id p))).
  apply bind_Return in Hrest as ([] & g1 & Hbranch & Hrest).
  apply bind_Return in Hrest as ([] & g2 & Hnext & Hend).
  split; [done|]. exists k, p, g1, g2. repeat (split; [done|]).
  split; [|done].
  destruct (action_type a); [|done..].
  unfold modify in Hbranch. congruence.
Qed.

(** ** Counting tiles *)

Lemma sum_list_with_insert {A} (f : A → nat) (l : list A) k x y :
  l !! k = Some x →
  (sum_list_with f (<[k := y]> l) + f x = sum_list_with f l + f y)%nat.
Proof.
  revert k. induction l as [|z l IH]; intros [|k] H; simpl in *; try done.
  - injection H as ->. lia.
  - specialize (IH k H). lia.
Qed.

Lemma hand_total_insert ps k p p' :
  ps !! k = Some p →
  (hand_total (<[k := p']> ps) + length (hand p)
   = hand_total ps + length (hand p'))%nat.
Proof. apply (sum_list_with_insert (λ p, length (hand p))). Qed.

(** ** [perform_action] *)

Lemma perform_action_Return rnd request games g' games' :
  perform_action rnd request games = (Return g', games') →
  ∃ g, find_one (game_id request) games = Some g
       ∧ apply_action rnd (action request) g = (Return (), g')
       ∧ games' = replace_one (game_id request) g' games.
Proof.
  unfold perform_action.
  destruct (find_one _ games) as [g|]; [|done].
  destruct (apply_action _ _ g) as [[[]|e] g1] eqn:Hrun; [|done].
  intros Heq. injection Heq as Hg Hgames. subst g1. by exists g.
Qed.

Lemma perform_action_Raise rnd request games e games' :
  perform_action rnd request games = (Raise e, games') → games' = games.
Proof.
  unfold perform_action.
  destruct (find_one _ games) as [g|]; [|by intros [= _ <-]].
  destruct (apply_action _ _ g) as [[[]|e'] g1]; [done|by intros [= _ <-]].
Qed.

(** [max] returns the first of the elements with the greatest key. *)
Lemma py_max_from_first {A} (key : A → Z) best l :
  ∃ l1 l2,
    best :: l = l1 ++ py_max_from key best l :: l2
    ∧ Forall (λ q, key q < key (py_max_from key best l)) l1
    ∧ Forall (λ q, key q ≤ key (py_max_from key best l)) l2.
Proof.
  revert best. induction l as [|x l IH]; intros best; simpl.
  { exists [], []. by repeat split. }
  destruct (key best <? key x) eqn:Hcmp.
  - apply Z.ltb_lt in Hcmp.
    destruct (IH x) as (l1 & l2 & Heq & H1 & H2).
    remember (py_max_from key x l) as w eqn:Ew. clear Ew.
    assert (Hx : key x ≤ key w).
    { assert (Hin : x ∈ l1 ++ w :: l2) by (rewrite <- Heq; by left).
      rewrite elem_of_app, elem_of_cons in Hin.
      rewrite Forall_forall in H1. rewrite Forall_forall in H2.
      destruct Hin as [?%H1|[<-|?%H2]]; lia. }
    exists (best :: l1), l2. rewrite Heq. split; [done|].
    split; [|done]. constructor; [lia|done].
  - apply Z.ltb_ge in Hcmp.
    destruct (IH best) as (l1 & l2 & Heq & H1 & H2).
    remember (py_max_from key best l) as w eqn:Ew. clear Ew.
    destruct l1 as [|y l1]; simpl in Heq.
    + injection Heq as Hw ->. exists [], (x :: l2). rewrite <- Hw.
      split; [done|]. split; [done|]. constructor; [lia|by rewrite Hw].
    + injection Heq as <- ->. exists (best :: x :: l1), l2.
      split; [done|]. split; [|done].
      inversion H1; subst. constructor; [done|]. constructor; [lia|done].
Qed.

Lemma py_max_first {A} (key : A → Z) l w :
  py_max key l = Some w →
  ∃ l1 l2, l = l1 ++ w :: l2
           ∧ Forall (λ q, key q < key w) l1
           ∧ Forall (λ q, key q ≤ key w) l2.
Proof.
  destruct l as [|x l]; simpl; [done|]. intros [= <-].
  apply py_max_from_first.
Qed.

(** C5. When an action succeeds on a game with P players and leaves
    [consecutive_passes >= P], the game is finished and [winner_id] is the
    id of the first player, in the order of the players sequence, whose
    score is the greatest: every player before the winner has a strictly
    smaller score, no player after has a greater one. *)
Theorem pass_out_winner (rnd : nat → nat) (request : GameActionRequest)
    (games games' : list GameState) (g g' : GameState) :
  find_one (game_id request) games = Some g →
  perform_action rnd request games = (Return g', games') →
  Z.of_nat (length (players g)) ≤ consecutive_passes g' →
  status g = IN_PROGRESS
  ∧ length (players g') = length (players g)
  ∧ status g' = FINISHED
  ∧ ∃ before winner after,
      players g' = before ++ winner :: after
      ∧ winner_id g' = Some (Player_id winner)
      ∧ Forall (λ q, score q < score winner) before
      ∧ Forall (λ q, score q ≤ score winner) after.
Proof.
  intros Hfind (g0 & Hfind' & Hrun & _)%perform_action_Return Hpass.
  assert (g0 = g) as -> by congruence.
  apply apply_action_Return in Hrun
    as (Hst & k & p & g1 & g2 & Hk & Hp & _ & Hbranch & Hnext & Hend).
  assert (Hlen1 : length (players g1) = length (players g)).
  { destruct (action_type (action request)).
    - by subst g1.
    - rewrite (exchange_run rnd k g p Hp) in Hbranch.
      injection Hbranch as <-. simpl. by rewrite length_insert.
    - apply (place_Return _ _ _ p) in Hbranch
        as (ts & ps & h1 & _ & _ & _ & _ & _ & _ & ->); [|done].
      simpl. by rewrite length_insert. }
  assert (Hne1 : players g1 ≠ []).
  { apply lookup_lt_Some in Hp. rewrite <- Hlen1 in Hp.
    intros Hnil. rewrite Hnil in Hp. simpl in Hp. lia. }
  rewrite (next_player_run g1 Hne1) in Hnext. injection Hnext as <-.
  rewrite check_game_end_run in Hend. simpl in Hend.
  case_bool_decide as Hge.
  - destruct (py_max score (players g1)) as [w|] eqn:Hmax; [|done].
    injection Hend as <-. simpl. repeat (split; [done|]).
    apply py_max_first in Hmax as (l1 & l2 & Heq & H1 & H2).
    by exists l1, w, l2.
  - injection Hend as <-. simpl in *. lia.
Qed.

(** After a successful action the end check finds fewer passes than players
    unless the action was a pass. *)
Lemma finish_after_reset g1 g' :
  players g1 ≠ [] → consecutive_passes g1 = 0 →
  (next_player;; check_game_end) g1 = (Return (), g') →
  g' = set_turn_number (turn_number g1 + 1)
         (set_current_player_index
            ((current_player_index g1 + 1) `mod` Z.of_nat (length (players g1)))
            g1).
Proof.
  intros Hne Hzero ([] & g2 & Hnext & Hend)%bind_Return.
  rewrite (next_player_run g1 Hne) in Hnext. injection Hnext as <-.
  rewrite check_game_end_run in Hend. simpl in Hend.
  rewrite bool_decide_eq_false_2 in Hend; [by injection Hend as <-|].
  rewrite Hzero. destruct (players g1); [done|]. simpl. lia.
Qed.

Lemma bind_finish g1 g2 g' :
  next_player g1 = (Return (), g2) → check_game_end g2 = (Return (), g') →
  (next_player;; check_game_end) g1 = (Return (), g').
Proof. intros H1 H2. unfold mbind, M_bind. by rewrite H1. Qed.

Lemma py_drop_last_appended {A} (l new : list A) n :
  n ≠ O → length new = n → py_drop_last n (l ++ new) = l.
Proof.
  intros Hn Hlen. unfold py_drop_last. destruct n; [done|].
  rewrite length_app, Hlen.
  replace (length l + S n - S n)%nat with (length l) by lia.
  by rewrite take_app_length.
Qed.

(** C6. When a place action succeeds and the acting player's hand is empty
    once the replacement tiles are drawn, that player's score is the old
    score plus the score of the placement plus 6, the game is finished and
    [winner_id] is that player's id. (The score of the placement is taken
    against the board without its last [len(tiles)] entries, which is the
    board before the action when no more tiles than positions were sent.) *)
Theorem place_all_tiles_bonus (rnd : nat → nat) (request : GameActionRequest)
    (games games' : list GameState) (g g' : GameState) (k : nat)
    (p p' : Player) :
  find_one (game_id request) games = Some g →
  action_type (action request) = PLACE →
  perform_action rnd request games = (Return g', games') →
  py_index (length (players g)) (current_player_index g) = Some k →
  players g !! k = Some p →
  players g' !! k = Some p' →
  hand p' = [] →
  ∃ ts ps,
    tiles (action request) = Some ts ∧ positions (action request) = Some ps
    ∧ Player_id p' = Player_id p
    ∧ score p'
      = score p
        + calculate_score (zip ts ps) (py_drop_last (length ts) (board g'))
        + 6
    ∧ ((length ts ≤ length ps)%nat →
       py_drop_last (length ts) (board g') = board g)
    ∧ status g' = FINISHED
    ∧ winner_id g' = Some (Player_id p).
Proof.
  intros Hfind Hty (g0 & Hfind' & Hrun & _)%perform_action_Return Hk Hp Hp' Hh.
  assert (g0 = g) as -> by congruence.
  apply apply_action_Return in Hrun
    as (Hst & k0 & p0 & g1 & g2 & Hk0 & Hp0 & _ & Hbranch & Hnext & Hend).
  assert (k0 = k) as -> by congruence.
  assert (p0 = p) as -> by congruence.
  rewrite Hty in Hbranch.
  apply (place_Return _ _ _ p) in Hbranch
    as (ts & ps & h1 & Hts & Hps & Hts0 & Hps0 & _ & _ & ->); [|done].
  assert (Hlt : (k < length (players g))%nat) by (by eapply lookup_lt_Some).
  pose proof (bind_finish _ _ _ Hnext Hend) as Hfin.
  apply finish_after_reset in Hfin; [|simpl|done].
  2:{ intros Hnil%(f_equal length). rewrite length_insert in Hnil.
      simpl in Hnil. lia. }
  subst g'. simpl in *.
  rewrite list_lookup_insert_eq in Hp' by done. injection Hp' as <-.
  simpl in Hh. exists ts, ps. rewrite !bool_decide_eq_true_2 by done. simpl.
  repeat (split; [done|]). split; [|done].
  intros Hle. apply py_drop_last_appended.
  - by destruct ts.
  - rewrite length_map, length_zip. lia.
Qed.

(** C10. A successful exchange leaves the acting player's hand size
    unchanged: the pile drawn from holds the returned hand, so it is never
    shorter than the hand, and the draw pile keeps its size too. *)
Theorem exchange_keeps_hand_size (rnd : nat → nat)
    (request : GameActionRequest) (games games' : list GameState)
    (g g' : GameState) (k : nat) (p : Player) :
  find_one (game_id request) games = Some g →
  action_type (action request) = EXCHANGE →
  perform_action rnd request games = (Return g', games') →
  py_index (length (players g)) (current_player_index g) = Some k →
  players g !! k = Some p →
  (length (hand p) ≤ length (shuffle rnd (remaining_tiles g ++ hand p)))%nat
  ∧ (length (hand p) `min` length (shuffle rnd (remaining_tiles g ++ hand p))
     = length (hand p))%nat
  ∧ length (remaining_tiles g') = length (remaining_tiles g)
  ∧ ∃ p', players g' !! k = Some p' ∧ length (hand p') = length (hand p).
Proof.
  intros Hfind Hty (g0 & Hfind' & Hrun & _)%perform_action_Return Hk Hp.
  assert (g0 = g) as -> by congruence.
  apply apply_action_Return in Hrun
    as (Hst & k0 & p0 & g1 & g2 & Hk0 & Hp0 & _ & Hbranch & Hnext & Hend).
  assert (k0 = k) as -> by congruence.
  assert (p0 = p) as -> by congruence.
  rewrite Hty in Hbranch.
  rewrite (exchange_run rnd k g p Hp) in Hbranch. injection Hbranch as <-.
  assert (Hlt : (k < length (players g))%nat) by (by eapply lookup_lt_Some).
  pose proof (bind_finish _ _ _ Hnext Hend) as Hfin.
  apply finish_after_reset in Hfin; [|simpl|done].
  2:{ intros Hnil%(f_equal length). rewrite length_insert in Hnil.
      simpl in Hnil. lia. }
  subst g'. simpl.
  assert (Hpile : length (shuffle rnd (remaining_tiles g ++ hand p))
                  = (length (remaining_tiles g) + length (hand p))%nat)
    by (by rewrite shuffle_length, length_app).
  split; [lia|]. split; [lia|]. split.
  - rewrite length_drop. lia.
  - eexists. split; [by apply list_lookup_insert_eq|].
    simpl. rewrite length_take. lia.
Qed.

(** ** Failing actions *)

Lemma apply_action_branch rnd a g k p :
  status g = IN_PROGRESS →
  py_index (length (players g)) (current_player_index g) = Some k →
  players g !! k = Some p →
  player_id a = Player_id p →
  apply_action rnd a g
  = (match action_type a with
     | PASS =>
         modify (λ g, set_consecutive_passes (consecutive_passes g + 1) g)
     | EXCHANGE => exchange rnd k
     | PLACE => place k a
     end;; next_player;; check_game_end) g.
Proof.
  intros Hst Hk Hp Hid. unfold apply_action.
  unfold mbind at 1, M_bind at 1, get at 1.
  rewrite bool_decide_eq_false_2 by (by intros ?). rewrite Hk.
  unfold mbind at 1, M_bind at 1, current at 1. rewrite Hp.
  by rewrite bool_decide_eq_false_2 by (by intros ?).
Qed.

Lemma apply_action_out_of_turn rnd a g k p :
  status g = IN_PROGRESS →
  py_index (length (players g)) (current_player_index g) = Some k →
  players g !! k = Some p →
  player_id a ≠ Player_id p →
  apply_action rnd a g = (Raise (HTTPException 400 "Not your turn"), g).
Proof.
  intros Hst Hk Hp Hid. unfold apply_action.
  unfold mbind at 1, M_bind at 1, get at 1.
  rewrite bool_decide_eq_false_2 by (by intros ?). rewrite Hk.
  unfold mbind at 1, M_bind at 1, current at 1. rewrite Hp.
  by rewrite bool_decide_eq_true_2 by done.
Qed.

Lemma place_not_in_hand k a g p ts ps :
  players g !! k = Some p →
  tiles a = Some ts → positions a = Some ps → ts ≠ [] → ps ≠ [] →
  all_valid (zip ts ps) (board g) = true →
  remove_tiles ts (hand p) = None →
  (place k a g).1 = Raise (HTTPException 400 "Tile not in hand").
Proof.
  intros Hp Hts Hps Hts0 Hps0 Hval Hrem.
  unfold place. rewrite Hts, Hps.
  rewrite !bool_decide_eq_false_2 by done. simpl.
  unfold mbind at 1, M_bind at 1. rewrite validate_loop.
  apply (find_enumerate_None (λ tp, validate_tile_placement tp.1 tp.2 (board g)))
    in Hval. rewrite Hval.
  unfold mbind at 1, M_bind at 1.
  pose proof (remove_loop_fail k ts g p Hp Hrem) as Hfail.
  destruct (for_each (remove_from_hand k) ts g) as [[[]|e] g1]; done.
Qed.

(** The handler's own copy of the game may be changed when it raises: in
    [late_game], "p1" holds one star/red tile and places a star/red and a
    star/blue tile; the first is taken out of the copy's hand before the
    second is found missing. The store keeps the game as it was. *)
Lemma tile_not_in_hand_local_copy :
  (apply_action identity_draws unheld_action late_game).1
  = Raise (HTTPException 400 "Tile not in hand")
  ∧ map hand (players late_game)
    = [[mkTile "star" "red" "t1"]; [mkTile "circle" "blue" "t2"]]
  ∧ map hand (players (apply_action identity_draws unheld_action late_game).2)
    = [[]; [mkTile "circle" "blue" "t2"]]
  ∧ perform_action identity_draws (mkGameActionRequest "g" unheld_action)
      [late_game]
    = (Raise (HTTPException 400 "Tile not in hand"), [late_game]).
Proof. by vm_compute. Qed.

(** C7. [perform_action] is all-or-nothing: whenever it raises -- whatever
    the exception -- the stored games are exactly those it was given. In
    particular an action of a player other than the current one is answered
    with "Not your turn", the handler's own copy of the game and the store
    both as they were, and a placement of a tile the player does not hold
    with "Tile not in hand", the store, and so the stored hand, untouched. *)
Theorem perform_action_all_or_nothing (rnd : nat → nat)
    (request : GameActionRequest) (games : list GameState) :
  (∀ e games',
     perform_action rnd request games = (Raise e, games') →
     games' = games)
  ∧ (∀ g k p,
       find_one (game_id request) games = Some g →
       status g = IN_PROGRESS →
       py_index (length (players g)) (current_player_index g) = Some k →
       players g !! k = Some p →
       player_id (action request) ≠ Player_id p →
       apply_action rnd (action request) g
       = (Raise (HTTPException 400 "Not your turn"), g)
       ∧ perform_action rnd request games
         = (Raise (HTTPException 400 "Not your turn"), games))
  ∧ (∀ g k p ts ps,
       find_one (game_id request) games = Some g →
       status g = IN_PROGRESS →
       py_index (length (players g)) (current_player_index g) = Some k →
       players g !! k = Some p →
       player_id (action request) = Player_id p →
       action_type (action request) = PLACE →
       tiles (action request) = Some ts →
       positions (action request) = Some ps →
       ts ≠ [] → ps ≠ [] →
       all_valid (zip ts ps) (board g) = true →
       remove_tiles ts (hand p) = None →
       perform_action rnd request games
       = (Raise (HTTPException 400 "Tile not in hand"), games)).
Proof.
  split; [intros e games'; apply perform_action_Raise|]. split.
  - intros g k p Hfind Hst Hk Hp Hid.
    split; [by apply (apply_action_out_of_turn rnd _ g k p)|].
    unfold perform_action.
    by rewrite Hfind, (apply_action_out_of_turn rnd _ g k p).
  - intros g k p ts ps Hfind Hst Hk Hp Hid Hty Hts Hps Hts0 Hps0 Hval Hrem.
    unfold perform_action. rewrite Hfind.
    rewrite (apply_action_branch rnd _ g k p) by done. rewrite Hty.
    pose proof (place_not_in_hand k _ g p ts ps Hp Hts Hps Hts0 Hps0 Hval Hrem)
      as Hfail.
    unfold mbind at 1, M_bind at 1.
    destruct (place k (action request) g) as [[[]|e] g1]; simpl in Hfail;
      [done|]. by injection Hfail as ->.
Qed.

(** ** Conservation of the tiles *)

Lemma deal_hands_spec ps pile :
  length (deal_hands ps pile).1 = length ps
  ∧ (hand_total (deal_hands ps pile).1 + length (deal_hands ps pile).2
     = length pile)%nat
  ∧ length (deal_hands ps pile).2
    = (length pile - INITIAL_HAND_SIZE * length ps)%nat.
Proof.
  revert pile. induction ps as [|p ps IH]; intros pile; simpl.
  - repeat split; lia.
  - destruct (IH (drop INITIAL_HAND_SIZE pile)) as (H1 & H2 & H3).
    rewrite H1, H3. unfold hand_total in *. simpl.
    rewrite length_drop in *. rewrite length_take.
    unfold INITIAL_HAND_SIZE in *. repeat split; lia.
Qed.

Lemma ai_loop_fields (mk : nat → Player) g0 l :
  let g := foldl (λ g i, set_players (players g ++ [mk i]) g) g0 l in
  board g = board g0 ∧ remaining_tiles g = remaining_tiles g0
  ∧ length (players g) = (length (players g0) + length l)%nat.
Proof.
  revert g0. induction l as [|i l IH]; intros g0; simpl.
  - repeat split; lia.
  - destruct (IH (set_players (players g0 ++ [mk i]) g0)) as (H1 & H2 & H3).
    rewrite H1, H2, H3. simpl. rewrite length_app. simpl. repeat split; lia.
Qed.

Lemma place_initial_tile_spec g :
  players (place_initial_tile g) = players g
  ∧ (length (board (place_initial_tile g))
       + length (remaining_tiles (place_initial_tile g))
     = length (board g) + length (remaining_tiles g))%nat
  ∧ length (board (place_initial_tile g))
    = (length (board g) + if remaining_tiles g is [] then 0 else 1)%nat.
Proof.
  unfold place_initial_tile. destruct (remaining_tiles g) as [|t rest] eqn:E.
  - rewrite E. simpl. repeat split; lia.
  - simpl. rewrite length_app. simpl. repeat split; lia.
Qed.

Lemma create_game_spec uuid now rnd request games :
  let g := (create_game uuid now rnd request games).1 in
  length (players g) = S (Z.to_nat (num_ai_players request))
  ∧ tile_total g = 1080%nat
  ∧ length (board g)
    = if bool_decide (length (players g) < 180)%nat then 1%nat else 0%nat.
Proof.
  unfold create_game. cbv zeta.
  remember (create_all_tiles _ rnd) as pile eqn:Epile.
  assert (Hpile : length pile = 1080%nat)
    by (subst pile; apply create_all_tiles_length).
  clear Epile. simpl.
  match goal with |- context [foldl ?f ?g0 ?l] =>
    pose proof (ai_loop_fields
      (λ i, mkPlayer (uuid (S (S i))) ("AI Player " +:+ pretty (i + 1)%nat)
              AI [] 0 true) g0 l) as Hloop;
    cbv zeta in Hloop; change (foldl f g0 l) with
      (foldl (λ g i, set_players
         (players g ++ [mkPlayer (uuid (S (S i)))
                          ("AI Player " +:+ pretty (i + 1)%nat) AI [] 0 true]) g)
         g0 l) in *;
    remember (foldl f g0 l) as gA eqn:EgA; clear EgA
  end.
  simpl in Hloop. destruct Hloop as (Hb & Hr & Hl). rewrite length_seq in Hl.
  unfold deal_initial_hands. simpl.
  destruct (deal_hands_spec (players gA) pile) as (H1 & H2 & H3).
  set (gD := set_remaining_tiles _ _).
  destruct (place_initial_tile_spec gD) as (P1 & P2 & P3).
  unfold tile_total. simpl. rewrite P1, P3.
  subst gD. simpl in *. rewrite Hb in *. simpl in *.
  split; [lia|]. split; [lia|].
  unfold INITIAL_HAND_SIZE in *.
  destruct (deal_hands (players gA) pile).2 eqn:E; simpl in *;
    case_bool_decide; lia.
Qed.

Lemma next_player_total g1 g2 :
  next_player g1 = (Return (), g2) → tile_total g2 = tile_total g1.
Proof.
  unfold next_player, mbind, M_bind, get, modify.
  case_bool_decide; [done|]. by intros [= <-].
Qed.

Lemma check_game_end_total g2 g' :
  check_game_end g2 = (Return (), g') → tile_total g' = tile_total g2.
Proof.
  rewrite check_game_end_run. case_bool_decide; [|by intros [= <-]].
  destruct (py_max score (players g2)); [|done]. by intros [= <-].
Qed.

Lemma exchange_total rnd k g p g1 :
  players g !! k = Some p →
  exchange rnd k g = (Return (), g1) → tile_total g1 = tile_total g.
Proof.
  intros Hp. rewrite (exchange_run rnd k g p Hp). intros [= <-].
  unfold tile_total. simpl.
  pose proof (hand_total_insert (players g) k p
    (set_hand (take (length (hand p)
                     `min` length (shuffle rnd (remaining_tiles g ++ hand p)))
                 (shuffle rnd (remaining_tiles g ++ hand p))) p) Hp) as Hins.
  simpl in Hins. rewrite length_take in Hins. rewrite length_drop.
  rewrite shuffle_length, length_app in *. lia.
Qed.

(** What a successful placement does to the number of tiles: the hand
    gives up [len(tiles)], the board gains one per (tile, position) pair. *)
Lemma place_total k a g p g1 ts ps :
  players g !! k = Some p →
  tiles a = Some ts → positions a = Some ps →
  place k a g = (Return (), g1) →
  (tile_total g1 + length ts
   = tile_total g + length ts `min` length ps)%nat.
Proof.
  intros Hp Hts Hps Hrun.
  apply (place_Return _ _ _ p) in Hrun
    as (ts' & ps' & h1 & Hts' & Hps' & _ & _ & _ & Hrem & ->); [|done].
  assert (ts' = ts) as -> by congruence.
  assert (ps' = ps) as -> by congruence.
  apply remove_tiles_length in Hrem.
  unfold tile_total, place_outcome. simpl.
  match goal with |- context [<[k := ?q]> (players g)] =>
    pose proof (hand_total_insert (players g) k p q Hp) as Hins end.
  simpl in Hins. rewrite length_app, length_take in Hins.
  rewrite length_app, length_map, length_zip, length_drop. lia.
Qed.

Lemma apply_action_total rnd a g g' :
  apply_action rnd a g = (Return (), g') →
  (action_type a = PLACE →
   ∀ ts ps, tiles a = Some ts → positions a = Some ps →
            (length ts ≤ length ps)%nat) →
  tile_total g' = tile_total g.
Proof.
  intros (Hst & k & p & g1 & g2 & Hk & Hp & _ & Hbranch & Hnext & Hend)
           %apply_action_Return Hpar.
  rewrite (check_game_end_total _ _ Hend), (next_player_total _ _ Hnext).
  destruct (action_type a) eqn:Hty.
  - by subst g1.
  - by eapply exchange_total.
  - destruct (place_Return _ _ _ p _ Hp Hbranch)
      as (ts & ps & h1 & Hts & Hps & _).
    pose proof (place_total k a g p g1 ts ps Hp Hts Hps Hbranch).
    specialize (Hpar eq_refl ts ps Hts Hps). lia.
Qed.

Lemma perform_action_total rnd request games g g' games' :
  find_one (game_id request) games = Some g →
  parallel_payload (action request) →
  perform_action rnd request games = (Return g', games') →
  tile_total g' = tile_total g.
Proof.
  intros Hfind Hpar (g0 & Hfind' & Hrun & _)%perform_action_Return.
  assert (g0 = g) as -> by congruence.
  apply (apply_action_total _ _ _ _ Hrun).
  intros Hty ts ps Hts Hps. by rewrite (Hpar Hty ts ps Hts Hps).
Qed.

Lemma reachable_total g :
  reachable_by parallel_payload g → tile_total g = 1080%nat.
Proof.
  induction 1 as [uuid now rnd request games
                 |rnd request games g g' games' _ IH Hfind Hok Hrun].
  - apply create_game_spec.
  - rewrite <- IH. by eapply perform_action_total.
Qed.

(** ** Board positions *)

Lemma all_valid_free pairs b tp :
  all_valid pairs b = true → tp ∈ pairs → ¬ occupied tp.2 b.
Proof.
  unfold all_valid. rewrite forallb_forall. intros Hall Hin.
  specialize (Hall tp (proj1 (list_elem_of_In _ _) Hin)).
  by apply validate_tile_placement_true in Hall as [Hfree _].
Qed.

Lemma board_positions_app b new :
  board_positions (b ++ new) = board_positions b ++ board_positions new.
Proof. unfold board_positions. apply map_app. Qed.

Lemma board_positions_placed (by_ : string) (turn : Z) pairs :
  board_positions (map (λ tp, mkPlacedTile tp.1 tp.2 by_ turn) pairs)
  = map snd pairs.
Proof. unfold board_positions. rewrite map_map. by apply map_ext. Qed.

(** A place action naming pairwise distinct positions keeps the board at
    one tile per position; so do passes and exchanges, which leave the
    board alone. *)
Lemma apply_action_unique rnd a g g' :
  apply_action rnd a g = (Return (), g') →
  distinct_positions a →
  NoDup (board_positions (board g)) → NoDup (board_positions (board g')).
Proof.
  intros (Hst & k & p & g1 & g2 & Hk & Hp & _ & Hbranch & Hnext & Hend)
           %apply_action_Return Hdist Hnd.
  assert (Hb : board g' = board g1).
  { rewrite check_game_end_run in Hend.
    unfold next_player, mbind, M_bind, get, modify in Hnext.
    destruct (bool_decide (players g1 = [])); [done|].
    injection Hnext as <-.
    destruct (bool_decide _) in Hend; [|by injection Hend as <-].
    destruct (py_max score _) in Hend; [|done]. by injection Hend as <-. }
  rewrite Hb. destruct (action_type a) eqn:Hty.
  - by subst g1.
  - rewrite (exchange_run rnd k g p Hp) in Hbranch. by injection Hbranch as <-.
  - apply (place_Return _ _ _ p) in Hbranch
      as (ts & ps & h1 & Hts & Hps & _ & _ & Hval & _ & ->); [|done].
    simpl. rewrite board_positions_app, board_positions_placed.
    apply NoDup_app. split; [done|]. split; [|by apply (Hdist Hty ts ps)].
    intros pos Hocc%occupied_board_positions Hnew.
    apply list_elem_of_In, in_map_iff in Hnew as (tp & <- & Hin).
    by apply (all_valid_free _ _ tp Hval); [apply list_elem_of_In|].
Qed.

Lemma create_game_unique uuid now rnd request games :
  NoDup (board_positions (board (create_game uuid now rnd request games).1)).
Proof.
  pose proof (create_game_spec uuid now rnd request games) as (_ & _ & Hlen).
  cbv zeta in Hlen.
  destruct (board (create_game uuid now rnd request games).1) as [|x [|y b]].
  - constructor.
  - apply NoDup_singleton.
  - simpl in Hlen. case_bool_decide; lia.
Qed.

Lemma reachable_unique g :
  reachable_by distinct_positions g → NoDup (board_positions (board g)).
Proof.
  induction 1 as [uuid now rnd request games
                 |rnd request games g g' games' _ IH Hfind Hok Hrun].
  - apply create_game_unique.
  - apply perform_action_Return in Hrun as (g0 & Hfind' & Hrun & _).
    assert (g0 = g) as -> by congruence.
    by apply (apply_action_unique rnd (action request) g g').
Qed.

(** ** Concrete games *)

Lemma demo_game_facts :
  map (λ p, (Player_id p, name p, map (λ t, (shape t, color t)) (hand p)))
    (players demo_game)
  = [("u1", "A", replicate 6 ("star", "red"));
     ("u2", "AI Player 1", replicate 6 ("star", "red"))]
  ∧ board demo_game
    = [mkPlacedTile (mkTile "star" "red" "u15") (mkPosition 0 0) "referee" 0]
  ∧ length (remaining_tiles demo_game) = 1067%nat
  ∧ GameState_id demo_game = "u0"
  ∧ status demo_game = IN_PROGRESS
  ∧ current_player_index demo_game = 0
  ∧ tile_total demo_game = 1080%nat.
Proof. by vm_compute. Qed.

(** C2, as stated, does not hold. By design: with 180 players the deal
    uses up the whole pool, [place_initial_tile] finds no tile left, and
    the board of the new game is empty, not of size 1 (the total is 1080 all
    the same). Besides: a place action carrying two tiles and one position
    is carried out, takes both tiles from the hand and puts one on the
    board; the total drops from 1080 to 1079. *)
Lemma tile_total_not_as_stated :
  (length (players crowded_game) = 180%nat
   ∧ tile_total crowded_game = 1080%nat
   ∧ length (board crowded_game) = 0%nat
   ∧ length (board crowded_game) ≠ 1%nat)
  ∧ (tile_total demo_game = 1080%nat
     ∧ perform_action identity_draws short_request [demo_game]
       = (Return short_game, [short_game])
     ∧ tile_total short_game = 1079%nat).
Proof. by vm_compute. Qed.

(** C2, amended. Right after [create_game] the hands, the board and the
    draw pile hold 1080 tiles together; the board holds one tile when fewer
    than 180 players take part and none otherwise. Every successful pass,
    exchange, and place action with as many tiles as positions leaves the
    total unchanged, so it is 1080 in every state reached through such
    actions. *)
Theorem tile_total_conserved :
  (∀ uuid now rnd request games,
     let g := (create_game uuid now rnd request games).1 in
     tile_total g = 1080%nat
     ∧ length (board g)
       = if bool_decide (length (players g) < 180)%nat then 1%nat else 0%nat)
  ∧ (∀ rnd request games g g' games',
       find_one (game_id request) games = Some g →
       parallel_payload (action request) →
       perform_action rnd request games = (Return g', games') →
       tile_total g' = tile_total g)
  ∧ (∀ g, reachable_by parallel_payload g → tile_total g = 1080%nat).
Proof.
  split; [|split].
  - intros uuid now rnd request games. apply create_game_spec.
  - apply perform_action_total.
  - apply reachable_total.
Qed.

(** C8: the code does not reject a place action whose sequences differ in
    length. On [demo_game] the human sends two star/red tiles and the single
    position (0,1): the action succeeds, both tiles leave the hand, one is
    put on the board, two are drawn, and one tile is lost to the game. *)
Theorem mismatched_payload_accepted :
  tiles (action short_request) = Some [star_red; star_red]
  ∧ positions (action short_request) = Some [mkPosition 0 1]
  ∧ perform_action identity_draws short_request [demo_game]
    = (Return short_game, [short_game])
  ∧ board_positions (board short_game) = [mkPosition 0 0; mkPosition 0 1]
  ∧ map (λ p, (length (hand p), score p)) (players short_game)
    = [(6%nat, 3); (6%nat, 0)]
  ∧ length (remaining_tiles short_game) = 1065%nat
  ∧ tile_total demo_game = 1080%nat
  ∧ tile_total short_game = 1079%nat.
Proof. by vm_compute. Qed.

Lemma stacked_game_run :
  perform_action identity_draws stacking_request [demo_game]
  = (Return stacked_game, [stacked_game]).
Proof. by vm_compute. Qed.

(** C9: position uniqueness is not kept by the code. From the game just
    created, the human places two star/red tiles in one action, both on
    (0,1); each is checked against the board before the action only, both
    are accepted, and the reached board holds two tiles on (0,1). *)
Theorem stacked_game_reachable :
  reachable stacked_game
  ∧ status stacked_game = IN_PROGRESS
  ∧ board_positions (board stacked_game)
    = [mkPosition 0 0; mkPosition 0 1; mkPosition 0 1]
  ∧ ¬ NoDup (board_positions (board stacked_game)).
Proof.
  split.
  - apply (reachable_action _ identity_draws stacking_request
             [demo_game] demo_game stacked_game [stacked_game]).
    + apply reachable_create.
    + by vm_compute.
    + done.
    + apply stacked_game_run.
  - split; [by vm_compute|]. split; [by vm_compute|].
    replace (board_positions (board stacked_game))
      with [mkPosition 0 0; mkPosition 0 1; mkPosition 0 1] by (by vm_compute).
    intros Hnd. apply NoDup_cons in Hnd as [_ Hnd].
    apply NoDup_cons in Hnd as [Hnin _]. apply Hnin. by left.
Qed.

(** ** The theorems at concrete games *)

Lemma pass_out_winner_witness :
  find_one "g" [late_game] = Some late_game
  ∧ perform_action identity_draws (late_request PASS "p1" None None)
      [late_game] = (Return late_passed, [late_passed])
  ∧ Z.of_nat (length (players late_game)) ≤ consecutive_passes late_passed
  ∧ status late_passed = FINISHED
  ∧ winner_id late_passed = Some "p1".
Proof.
  assert (H1 : find_one "g" [late_game] = Some late_game) by reflexivity.
  assert (H2 : perform_action identity_draws
                 (late_request PASS "p1" None None) [late_game]
               = (Return late_passed, [late_passed])) by (vm_compute; reflexivity).
  assert (H3 : Z.of_nat (length (players late_game))
               ≤ consecutive_passes late_passed) by (vm_compute; discriminate).
  split; [exact H1|]. split; [exact H2|]. split; [exact H3|].
  destruct (pass_out_winner identity_draws
              (late_request PASS "p1" None None) [late_game] [late_passed]
              late_game late_passed H1 H2 H3)
    as (_ & _ & Hfin & _).
  split; [exact Hfin|]. vm_compute. reflexivity.
Defined.

Lemma place_all_tiles_bonus_witness :
  find_one "g" [late_game] = Some late_game
  ∧ perform_action identity_draws
      (late_request PLACE "p1" (Some [star_red]) (Some [mkPosition 0 1]))
      [late_game] = (Return late_placed, [late_placed])
  ∧ py_index (length (players late_game)) (current_player_index late_game)
    = Some O
  ∧ players late_game !! O = Some late_p1
  ∧ players late_placed !! O = Some late_p1_done
  ∧ hand late_p1_done = []
  ∧ status late_placed = FINISHED
  ∧ winner_id late_placed = Some "p1".
Proof.
  assert (H1 : find_one "g" [late_game] = Some late_game) by reflexivity.
  assert (H2 : perform_action identity_draws
                 (late_request PLACE "p1" (Some [star_red])
                    (Some [mkPosition 0 1])) [late_game]
               = (Return late_placed, [late_placed])) by (vm_compute; reflexivity).
  assert (H3 : py_index (length (players late_game))
                 (current_player_index late_game) = Some O) by reflexivity.
  assert (H4 : players late_game !! O = Some late_p1) by reflexivity.
  assert (H5 : players late_placed !! O = Some late_p1_done)
    by (vm_compute; reflexivity).
  assert (H6 : hand late_p1_done = []) by reflexivity.
  repeat (split; [assumption|]).
  destruct (place_all_tiles_bonus identity_draws
              (late_request PLACE "p1" (Some [star_red])
                 (Some [mkPosition 0 1]))
              [late_game] [late_placed] late_game late_placed O
              late_p1 late_p1_done
              H1 eq_refl H2 H3 H4 H5 H6)
    as (ts & ps & _ & _ & _ & _ & _ & Hfin & Hwin).
  split; [exact Hfin|exact Hwin].
Defined.

Lemma exchange_keeps_hand_size_witness :
  find_one "g" [late_game] = Some late_game
  ∧ perform_action identity_draws (late_request EXCHANGE "p1" None None)
      [late_game] = (Return late_exchanged, [late_exchanged])
  ∧ py_index (length (players late_game)) (current_player_index late_game)
    = Some O
  ∧ players late_game !! O = Some late_p1
  ∧ ∃ p', players late_exchanged !! O = Some p'
          ∧ length (hand p') = length (hand late_p1).
Proof.
  assert (H1 : find_one "g" [late_game] = Some late_game) by reflexivity.
  assert (H2 : perform_action identity_draws
                 (late_request EXCHANGE "p1" None None) [late_game]
               = (Return late_exchanged, [late_exchanged]))
    by (vm_compute; reflexivity).
  assert (H3 : py_index (length (players late_game))
                 (current_player_index late_game) = Some O) by reflexivity.
  assert (H4 : players late_game !! O = Some late_p1) by reflexivity.
  repeat (split; [assumption|]).
  exact (proj2 (proj2 (proj2
    (exchange_keeps_hand_size identity_draws
       (late_request EXCHANGE "p1" None None) [late_game] [late_exchanged]
       late_game late_exchanged O late_p1 H1 eq_refl H2 H3 H4)))).
Defined.

Lemma perform_action_all_or_nothing_witness :
  find_one "g" [late_game] = Some late_game
  ∧ status late_game = IN_PROGRESS
  ∧ py_index (length (players late_game)) (current_player_index late_game)
    = Some O
  ∧ players late_game !! O = Some late_p1
  ∧ "p2" ≠ Player_id late_p1
  ∧ perform_action identity_draws (late_request PASS "p2" None None)
      [late_game]
    = (Raise (HTTPException 400 "Not your turn"), [late_game]).
Proof.
  assert (H1 : find_one "g" [late_game] = Some late_game) by reflexivity.
  assert (H2 : status late_game = IN_PROGRESS) by reflexivity.
  assert (H3 : py_index (length (players late_game))
                 (current_player_index late_game) = Some O) by reflexivity.
  assert (H4 : players late_game !! O = Some late_p1) by reflexivity.
  assert (H5 : "p2" ≠ Player_id late_p1) by (simpl; discriminate).
  repeat (split; [assumption|]).
  exact (proj2 (proj1 (proj2
    (perform_action_all_or_nothing identity_draws
       (late_request PASS "p2" None None) [late_game]))
    late_game O late_p1 H1 H2 H3 H4 H5)).
Defined.

Lemma tile_total_conserved_witness :
  find_one "g" [late_game] = Some late_game
  ∧ parallel_payload (action (late_request PLACE "p1" (Some [star_red])
                                (Some [mkPosition 0 1])))
  ∧ perform_action identity_draws
      (late_request PLACE "p1" (Some [star_red]) (Some [mkPosition 0 1]))
      [late_game] = (Return late_placed, [late_placed])
  ∧ tile_total late_placed = tile_total late_game.
Proof.
  assert (H1 : find_one "g" [late_game] = Some late_game) by reflexivity.
  assert (H2 : parallel_payload
                 (action (late_request PLACE "p1" (Some [star_red])
                            (Some [mkPosition 0 1])))).
  { intros _ ts ps Hts Hps. simpl in Hts, Hps.
    injection Hts as <-. injection Hps as <-. reflexivity. }
  assert (H3 : perform_action identity_draws
                 (late_request PLACE "p1" (Some [star_red])
                    (Some [mkPosition 0 1])) [late_game]
               = (Return late_placed, [late_placed])) by (vm_compute; reflexivity).
  repeat (split; [assumption|]).
  exact (proj1 (proj2 tile_total_conserved) identity_draws
           (late_request PLACE "p1" (Some [star_red]) (Some [mkPosition 0 1]))
           [late_game] late_game late_placed [late_placed] H1 H2 H3).
Defined.

Lemma create_all_tiles_census_witness :
  "star" ∈ SHAPES ∧ "red" ∈ COLORS
  ∧ count_type "star" "red" (create_all_tiles demo_uuid identity_draws)
    = 30%nat.
Proof.
  assert (H1 : "star" ∈ SHAPES) by (by left).
  assert (H2 : "red" ∈ COLORS) by (by left).
  repeat (split; [assumption|]).
  exact (proj2 (proj2 (proj2 (proj2 (proj2
    (create_all_tiles_census demo_uuid identity_draws)))))
    "star" "red" H1 H2).
Defined.

(** The example of the specification: with star/red on (0,0), star/blue is
    accepted on (1,0), where it shares the shape of its only neighbor, and
    rejected on (1,1), which has no neighbor. *)
Lemma validate_tile_placement_spec_witness :
  (¬ occupied (mkPosition 1 0) [referee_tile]
   ∧ ([referee_tile] = []
      ∨ ∃ n, n ∈ orthogonal_neighbors (mkPosition 1 0)
             ∧ occupied n [referee_tile])
   ∧ (∀ n pt, n ∈ orthogonal_neighbors (mkPosition 1 0) →
        tile_at n [referee_tile] = Some pt →
        shares_attribute star_blue (tile pt))
   ∧ validate_tile_placement star_blue (mkPosition 1 0) [referee_tile] = true)
  ∧ ([referee_tile] ≠ []
     ∧ (∀ n, n ∈ orthogonal_neighbors (mkPosition 1 1) →
          ¬ occupied n [referee_tile])
     ∧ validate_tile_placement star_blue (mkPosition 1 1) [referee_tile]
       = false).
Proof.
  assert (H1 : ¬ occupied (mkPosition 1 0) [referee_tile]).
  { intros (pt & Hin & Hpos). apply list_elem_of_singleton in Hin as ->.
    discriminate Hpos. }
  assert (H2 : [referee_tile] = [] ∨
               ∃ n, n ∈ orthogonal_neighbors (mkPosition 1 0)
                    ∧ occupied n [referee_tile]).
  { right. exists (mkPosition 0 0). split; [by left|].
    exists referee_tile. split; [by left|reflexivity]. }
  assert (H3 : ∀ n pt, n ∈ orthogonal_neighbors (mkPosition 1 0) →
                 tile_at n [referee_tile] = Some pt →
                 shares_attribute star_blue (tile pt)).
  { intros n pt Hn Hpt. unfold orthogonal_neighbors in Hn.
    repeat (apply elem_of_cons in Hn as [->|Hn]); [..|by apply elem_of_nil in Hn];
      vm_compute in Hpt; try discriminate Hpt.
    injection Hpt as <-. right. reflexivity. }
  assert (H4 : [referee_tile] ≠ []) by discriminate.
  assert (H5 : ∀ n, n ∈ orthogonal_neighbors (mkPosition 1 1) →
                 ¬ occupied n [referee_tile]).
  { intros n Hn (pt & Hin & Hpos). apply list_elem_of_singleton in Hin as ->.
    unfold orthogonal_neighbors in Hn.
    repeat (apply elem_of_cons in Hn as [->|Hn]); [..|by apply elem_of_nil in Hn];
      discriminate Hpos. }
  split.
  - repeat (split; [assumption|]).
    exact (proj1 (proj2 (proj2 (proj2 (proj2
      (validate_tile_placement_spec star_blue (mkPosition 1 0)
         [referee_tile]))))) H1 H2 H3).
  - repeat (split; [assumption|]).
    exact (proj1 (proj2
      (validate_tile_placement_spec star_blue (mkPosition 1 1)
         [referee_tile])) H4 H5).
Defined.

Lemma calculate_score_spec_witness :
  (referee_tile ∈ row_tiles star_blue (mkPosition 0 1) [referee_tile]
   ∨ referee_tile ∈ col_tiles star_blue (mkPosition 0 1) [referee_tile])
  ∧ (referee_tile ∈ [referee_tile]
     ∨ referee_tile = mkPlacedTile star_blue (mkPosition 0 1) "temp" 0)
  ∧ calculate_score [(star_blue, mkPosition 0 1)] [referee_tile] = 4.
Proof.
  assert (H1 : referee_tile ∈ row_tiles star_blue (mkPosition 0 1) [referee_tile]
               ∨ referee_tile
                 ∈ col_tiles star_blue (mkPosition 0 1) [referee_tile]).
  { left. vm_compute. left. }
  split; [exact H1|]. split.
  - exact (proj1 (proj2 (proj2
      (calculate_score_spec [(star_blue, mkPosition 0 1)] [] [referee_tile])))
      star_blue (mkPosition 0 1) referee_tile H1).
  - rewrite (proj1
      (calculate_score_spec [(star_blue, mkPosition 0 1)] [] [referee_tile])).
    vm_compute. reflexivity.
Defined.

(** * Further properties *)

(** ** One successful action, field by field *)

Lemma calculate_score_lower placed b :
  3 * Z.of_nat (length placed) ≤ calculate_score placed b.
Proof.
  rewrite calculate_score_formula.
  assert (H : (2 * length placed ≤ sum_list_with (tally b) placed)%nat).
  { induction placed as [|tp placed IH]; simpl; [lia|]. unfold tally at 1. lia. }
  lia.
Qed.

(** The turn advance and the end check after the action proper. *)
Lemma finish_fields g1 g2 g' :
  next_player g1 = (Return (), g2) →
  check_game_end g2 = (Return (), g') →
  players g1 ≠ []
  ∧ players g' = players g1 ∧ board g' = board g1
  ∧ remaining_tiles g' = remaining_tiles g1
  ∧ consecutive_passes g' = consecutive_passes g1
  ∧ GameState_id g' = GameState_id g1 ∧ created_at g' = created_at g1
  ∧ current_player_index g'
    = (current_player_index g1 + 1) `mod` Z.of_nat (length (players g1))
  ∧ turn_number g' = turn_number g1 + 1
  ∧ if bool_decide (Z.of_nat (length (players g1)) ≤ consecutive_passes g1)
    then status g' = FINISHED
         ∧ ∃ w, py_max score (players g1) = Some w
                ∧ winner_id g' = Some (Player_id w)
    else status g' = status g1 ∧ winner_id g' = winner_id g1.
Proof.
  intros Hnext Hend.
  unfold next_player, mbind, M_bind, get, modify in Hnext.
  destruct (bool_decide (players g1 = [])) eqn:Hnil; [done|].
  apply bool_decide_eq_false in Hnil. injection Hnext as <-.
  rewrite check_game_end_run in Hend. simpl in Hend.
  split; [done|].
  destruct (bool_decide (Z.of_nat (length (players g1)) ≤ consecutive_passes g1)).
  - destruct (py_max score (players g1)) as [w|]; [|done].
    injection Hend as <-. simpl. split_and!; try done. by exists w.
  - injection Hend as <-. simpl. by split_and!.
Qed.

(** The action proper: what the pass, exchange and place branches do to
    the game, seen from the acting player [p] in slot [k]. *)
Lemma branch_fields rnd a g k p g1 :
  players g !! k = Some p →
  match action_type a with
  | PASS => g1 = set_consecutive_passes (consecutive_passes g + 1) g
  | EXCHANGE => exchange rnd k g = (Return (), g1)
  | PLACE => place k a g = (Return (), g1)
  end →
  GameState_id g1 = GameState_id g ∧ created_at g1 = created_at g
  ∧ current_player_index g1 = current_player_index g
  ∧ turn_number g1 = turn_number g
  ∧ consecutive_passes g1
    = (if decide (action_type a = PASS) then consecutive_passes g + 1 else 0)
  ∧ board g `prefix_of` board g1
  ∧ ((status g1 = status g ∧ winner_id g1 = winner_id g)
     ∨ (action_type a = PLACE ∧ status g1 = FINISHED
        ∧ winner_id g1 = Some (Player_id p)))
  ∧ ∃ p1, players g1 = <[k := p1]> (players g)
          ∧ Player_id p1 = Player_id p ∧ name p1 = name p
          ∧ player_type p1 = player_type p ∧ is_active p1 = is_active p
          ∧ score p ≤ score p1
          ∧ (length (hand p1) ≤ length (hand p))%nat
          ∧ (action_type a = PASS → p1 = p).
Proof.
  intros Hp Hbranch. destruct (action_type a) eqn:Hty.
  - subst g1. simpl. split_and!; try done; [by left|].
    exists p. rewrite list_insert_id by done. split_and!; try done; try lia.
  - rewrite (exchange_run rnd k g p Hp) in Hbranch. injection Hbranch as <-.
    simpl. split_and!; try done; [by left|].
    eexists. split; [done|]. simpl. split_and!; try done; try lia.
    rewrite length_take. lia.
  - apply (place_Return _ _ _ p) in Hbranch
      as (ts & ps & h1 & Hts & Hps & _ & _ & _ & Hrem & ->); [|done].
    apply remove_tiles_length in Hrem.
    unfold place_outcome. simpl. split_and!; try done.
    + by apply prefix_app_r.
    + case_bool_decide; [by right|by left].
    + eexists. split; [done|]. simpl.
      pose proof (calculate_score_lower (zip ts ps)
        (py_drop_last (length ts)
           (board g ++ map (λ tp, mkPlacedTile tp.1 tp.2 (Player_id p)
                                (turn_number g)) (zip ts ps)))) as Hsc.
      split_and!; try done; try (case_bool_decide; lia).
      rewrite length_app, length_take. lia.
Qed.

(** A successful [perform_action], decomposed. *)
Lemma perform_action_step rnd request games g g' games' :
  find_one (game_id request) games = Some g →
  perform_action rnd request games = (Return g', games') →
  status g = IN_PROGRESS
  ∧ games' = replace_one (game_id request) g' games
  ∧ ∃ k p g1 g2,
      py_index (length (players g)) (current_player_index g) = Some k
      ∧ players g !! k = Some p
      ∧ player_id (action request) = Player_id p
      ∧ match action_type (action request) with
        | PASS => g1 = set_consecutive_passes (consecutive_passes g + 1) g
        | EXCHANGE => exchange rnd k g = (Return (), g1)
        | PLACE => place k (action request) g = (Return (), g1)
        end
      ∧ next_player g1 = (Return (), g2)
      ∧ check_game_end g2 = (Return (), g').
Proof.
  intros Hfind (g0 & Hfind' & Hrun & Hgames)%perform_action_Return.
  assert (g0 = g) as -> by congruence.
  apply apply_action_Return in Hrun as (Hst & Hrest). by repeat split.
Qed.

(** ** Setting a game up *)

Lemma deal_hands_lookup ps pile i p :
  ps !! i = Some p →
  (deal_hands ps pile).1 !! i
  = Some (set_hand (take INITIAL_HAND_SIZE
                      (drop (INITIAL_HAND_SIZE * i) pile)) p).
Proof.
  revert pile i. induction ps as [|q ps IH]; intros pile [|i] H; try done.
  - simpl in H. by injection H as ->.
  - change ((deal_hands (q :: ps) pile).1 !! S i)
      with ((deal_hands ps (drop INITIAL_HAND_SIZE pile)).1 !! i).
    rewrite (IH _ i H), drop_drop.
    by replace (INITIAL_HAND_SIZE + INITIAL_HAND_SIZE * i)%nat
      with (INITIAL_HAND_SIZE * S i)%nat by lia.
Qed.

Lemma deal_hands_rest ps pile :
  (deal_hands ps pile).2 = drop (INITIAL_HAND_SIZE * length ps) pile.
Proof.
  revert pile. induction ps as [|q ps IH]; intros pile; [done|].
  change ((deal_hands (q :: ps) pile).2)
    with ((deal_hands ps (drop INITIAL_HAND_SIZE pile)).2).
  rewrite IH, drop_drop.
  by replace (INITIAL_HAND_SIZE + INITIAL_HAND_SIZE * length ps)%nat
    with (INITIAL_HAND_SIZE * length (q :: ps))%nat by (simpl; lia).
Qed.

Lemma deal_hands_concat ps pile :
  concat (map hand (deal_hands ps pile).1) ++ (deal_hands ps pile).2 = pile.
Proof.
  revert pile. induction ps as [|q ps IH]; intros pile; simpl; [done|].
  rewrite <- app_assoc, IH. apply take_drop.
Qed.

Lemma deal_initial_hands_facts g :
  length (players (deal_initial_hands g)) = length (players g)
  ∧ (∀ i p, players g !! i = Some p →
       players (deal_initial_hands g) !! i
       = Some (set_hand (take 6 (drop (6 * i) (remaining_tiles g))) p))
  ∧ remaining_tiles (deal_initial_hands g)
    = drop (6 * length (players g)) (remaining_tiles g)
  ∧ concat (map hand (players (deal_initial_hands g)))
      ++ remaining_tiles (deal_initial_hands g)
    = remaining_tiles g
  ∧ board (deal_initial_hands g) = board g.
Proof.
  unfold deal_initial_hands. simpl. split_and!.
  - apply deal_hands_spec.
  - intros i p Hp. by apply deal_hands_lookup.
  - apply deal_hands_rest.
  - apply deal_hands_concat.
  - done.
Qed.


(** The players [create_game] builds before dealing: the human, then the
    AI players in order. *)
Lemma ai_loop_players (mk : nat → Player) g0 l :
  foldl (λ g i, set_players (players g ++ [mk i]) g) g0 l
  = set_players (players g0 ++ map mk l) g0.
Proof.
  revert g0. induction l as [|i l IH]; intros g0; simpl.
  - rewrite app_nil_r. by destruct g0.
  - rewrite IH. simpl. by rewrite <- app_assoc.
Qed.

Lemma create_game_unfold uuid now rnd request games :
  (create_game uuid now rnd request games).1
  = set_status IN_PROGRESS
      (place_initial_tile
         (deal_initial_hands
            (mkGameState (uuid O) WAITING (initial_players uuid request) []
               (create_all_tiles
                  (λ j, uuid (2 + Z.to_nat (num_ai_players request) + j)%nat)
                  rnd)
               0 0 now None 0))).
Proof.
  unfold create_game. cbv zeta. simpl fst.
  rewrite (ai_loop_players (ai_player uuid)). reflexivity.
Qed.

Lemma place_initial_tile_tiles g :
  players (place_initial_tile g) = players g
  ∧ map tile (board (place_initial_tile g))
      ++ remaining_tiles (place_initial_tile g)
    = map tile (board g) ++ remaining_tiles g.
Proof.
  unfold place_initial_tile. destruct (remaining_tiles g) as [|t rest] eqn:E.
  - by rewrite E.
  - simpl. by rewrite map_app, <- app_assoc.
Qed.

(** X2. [create_game] returns a game in progress at turn 0 with player 0 to
    move, no pass made and no winner, whose id is the first identifier
    generated. Its players are the human -- named as requested, second
    identifier -- followed by [num_ai_players] AI players named
    "AI Player 1", "AI Player 2", ... in order (none when the number is
    negative); all are active with score 0. *)
Theorem create_game_roster (uuid : nat → string) (now : Z) (rnd : nat → nat)
    (request : CreateGameRequest) (games : list GameState) :
  let g := (create_game uuid now rnd request games).1 in
  GameState_id g = uuid O ∧ created_at g = now ∧ status g = IN_PROGRESS
  ∧ current_player_index g = 0 ∧ turn_number g = 0
  ∧ consecutive_passes g = 0 ∧ winner_id g = None
  ∧ length (players g) = S (Z.to_nat (num_ai_players request))
  ∧ (∃ h, players g !! O
          = Some (mkPlayer (uuid 1%nat) (player_name request) HUMAN h 0 true))
  ∧ (∀ i, (i < Z.to_nat (num_ai_players request))%nat →
       ∃ h, players g !! S i
            = Some (mkPlayer (uuid (2 + i)%nat)
                      ("AI Player " +:+ pretty (i + 1)%nat) AI h 0 true)).
Proof.
  cbv zeta. rewrite create_game_unfold.
  generalize (create_all_tiles
    (λ j, uuid (2 + Z.to_nat (num_ai_players request) + j)%nat) rnd).
  intros pile.
  set (g0 := mkGameState _ _ _ _ pile _ _ _ _ _).
  destruct (place_initial_tile_tiles (deal_initial_hands g0)) as [Hpl _].
  destruct (deal_initial_hands_facts g0) as (Hlen & Hlook & _).
  assert (Hfields : ∀ g, GameState_id (place_initial_tile g) = GameState_id g
            ∧ created_at (place_initial_tile g) = created_at g
            ∧ current_player_index (place_initial_tile g) = current_player_index g
            ∧ turn_number (place_initial_tile g) = turn_number g
            ∧ consecutive_passes (place_initial_tile g) = consecutive_passes g
            ∧ winner_id (place_initial_tile g) = winner_id g).
  { intros g. unfold place_initial_tile. by destruct (remaining_tiles g). }
  destruct (Hfields (deal_initial_hands g0)) as (F1 & F2 & F3 & F4 & F5 & F6).
  unfold set_status.
  cbn [GameState_id created_at status current_player_index turn_number
       consecutive_passes winner_id players].
  rewrite F1, F2, F3, F4, F5, F6, Hpl, Hlen.
  split_and!; try done.
  - simpl. by rewrite length_map, length_seq.
  - eexists. by rewrite (Hlook O _ eq_refl).
  - intros i Hi. eexists. rewrite (Hlook (S i) (ai_player uuid i)); [done|].
    simpl. rewrite list_lookup_fmap, lookup_seq_lt by done. done.
Qed.

Lemma dealt_hand g i p :
  players (deal_initial_hands g) !! i = Some p →
  hand p = take 6 (drop (6 * i) (remaining_tiles g)).
Proof.
  intros Hp. destruct (deal_initial_hands_facts g) as (Hlen & Hlook & _).
  assert (Hi : (i < length (players g))%nat)
    by (rewrite <- Hlen; by eapply lookup_lt_Some).
  apply lookup_lt_is_Some in Hi as [q Hq].
  rewrite (Hlook i q Hq) in Hp. by injection Hp as <-.
Qed.

Lemma create_game_deal_facts (uuid : nat → string) (now : Z) (rnd : nat → nat)
    (request : CreateGameRequest) (games : list GameState) :
  let g := (create_game uuid now rnd request games).1 in
  let pool :=
    create_all_tiles
      (λ j, uuid (2 + Z.to_nat (num_ai_players request) + j)%nat) rnd in
  concat (map hand (players g)) ++ map tile (board g) ++ remaining_tiles g
  = pool
  ∧ (∀ p, p ∈ players g → (length (hand p) ≤ 6)%nat)
  ∧ ((length (players g) ≤ 180)%nat →
     ∀ p, p ∈ players g → length (hand p) = 6%nat)
  ∧ ((length (players g) < 180)%nat →
     (∃ t, board g = [mkPlacedTile t (mkPosition 0 0) "referee" 0])
     ∧ length (remaining_tiles g) = (1079 - 6 * length (players g))%nat)
  ∧ ((180 ≤ length (players g))%nat →
     board g = [] ∧ remaining_tiles g = []).
Proof.
  cbv zeta. rewrite create_game_unfold.
  pose proof (create_all_tiles_length
    (λ j, uuid (2 + Z.to_nat (num_ai_players request) + j)%nat) rnd) as Hpool.
  revert Hpool.
  generalize (create_all_tiles
    (λ j, uuid (2 + Z.to_nat (num_ai_players request) + j)%nat) rnd).
  intros pile Hpool.
  set (g0 := mkGameState _ _ _ _ pile _ _ _ _ _).
  destruct (place_initial_tile_tiles (deal_initial_hands g0)) as [Hpl Htiles].
  destruct (deal_initial_hands_facts g0) as (Hlen & _ & Hrest & Hcat & Hb).
  unfold set_status. cbn [players board remaining_tiles].
  rewrite Hpl, Htiles, Hb, Hlen. change (board g0) with (@nil PlacedTile).
  change (remaining_tiles g0) with pile in *.
  remember (length (players g0)) as P eqn:EP.
  assert (Hhand : ∀ p, p ∈ players (deal_initial_hands g0) →
            ∃ i, (i < P)%nat ∧ hand p = take 6 (drop (6 * i) pile)).
  { intros p (i & Hi)%list_elem_of_lookup. exists i. split.
    - rewrite <- Hlen. by eapply lookup_lt_Some.
    - by apply (dealt_hand g0). }
  split_and!.
  - done.
  - intros p (i & _ & ->)%Hhand. rewrite length_take. lia.
  - intros HP p (i & Hi & ->)%Hhand.
    rewrite length_take, length_drop. lia.
  - intros HP. unfold place_initial_tile. rewrite Hrest.
    destruct (drop (6 * P) pile) as [|t rest] eqn:E.
    { apply (f_equal length) in E. rewrite length_drop in E. cbn [length] in E. lia. }
    cbn [board remaining_tiles set_board set_remaining_tiles].
    rewrite Hb. split; [by exists t|].
    apply (f_equal length) in E. rewrite length_drop in E. cbn [length] in E. lia.
  - intros HP. unfold place_initial_tile. rewrite Hrest.
    destruct (drop (6 * P) pile) as [|t rest] eqn:E.
    + by rewrite Hb, Hrest.
    + apply (f_equal length) in E. rewrite length_drop in E. cbn [length] in E. lia.
Qed.

(** X3. The deal of [create_game]: the hands in player order, then the
    tile on the board, then the draw pile are the shuffled pool, tile by
    tile. No hand exceeds six tiles. Up to 180 players every hand has
    exactly six; with fewer than 180 the board is one tile on (0,0) placed
    by "referee" at turn 0 and 1079 - 6 P tiles remain; from 180 players on
    the board and the pile are empty. *)
Theorem create_game_deal (uuid : nat → string) (now : Z) (rnd : nat → nat)
    (request : CreateGameRequest) (games : list GameState) :
  let g := (create_game uuid now rnd request games).1 in
  let pool :=
    create_all_tiles
      (λ j, uuid (2 + Z.to_nat (num_ai_players request) + j)%nat) rnd in
  concat (map hand (players g)) ++ map tile (board g) ++ remaining_tiles g
  = pool
  ∧ (∀ p, p ∈ players g → (length (hand p) ≤ 6)%nat)
  ∧ ((length (players g) ≤ 180)%nat →
     ∀ p, p ∈ players g → length (hand p) = 6%nat)
  ∧ ((length (players g) < 180)%nat →
     (∃ t, board g = [mkPlacedTile t (mkPosition 0 0) "referee" 0])
     ∧ length (remaining_tiles g) = (1079 - 6 * length (players g))%nat)
  ∧ ((180 ≤ length (players g))%nat →
     board g = [] ∧ remaining_tiles g = []).
Proof. apply create_game_deal_facts. Qed.

(** ** States of a started game *)

Lemma elem_of_insert_inv {A} (l : list A) k x y :
  x ∈ <[k := y]> l → x = y ∨ x ∈ l.
Proof.
  intros (j & Hj)%list_elem_of_lookup.
  destruct (decide (j = k)) as [->|Hne].
  - destruct (decide (k < length l)%nat).
    + rewrite list_lookup_insert_eq in Hj by done. left. congruence.
    + rewrite list_insert_ge in Hj by lia. right.
      apply list_elem_of_lookup. eauto.
  - rewrite list_lookup_insert_ne in Hj by done. right.
    apply list_elem_of_lookup. eauto.
Qed.

Lemma started_well_formed gid now ps pile :
  ps ≠ [] → (∀ q, q ∈ ps → score q = 0) →
  well_formed
    (set_status IN_PROGRESS
       (place_initial_tile
          (deal_initial_hands
             (mkGameState gid WAITING ps [] pile 0 0 now None 0)))).
Proof.
  intros Hne Hzero.
  set (g0 := mkGameState gid WAITING ps [] pile 0 0 now None 0).
  destruct (deal_initial_hands_facts g0) as (Hlen & Hlook & _).
  change (players g0) with ps in *.
  assert (Hpos : (0 < length ps)%nat) by (destruct ps; [done|simpl; lia]).
  assert (Hplayer : ∀ p, p ∈ players (deal_initial_hands g0) →
            (length (hand p) ≤ INITIAL_HAND_SIZE)%nat ∧ score p = 0).
  { intros p (i & Hi)%list_elem_of_lookup.
    assert (Hlt : (i < length ps)%nat)
      by (rewrite <- Hlen; by eapply lookup_lt_Some).
    apply lookup_lt_is_Some in Hlt as [q Hq].
    rewrite (Hlook i q Hq) in Hi. injection Hi as <-. simpl. split.
    - rewrite length_take. unfold INITIAL_HAND_SIZE. lia.
    - apply Hzero, list_elem_of_lookup. eauto. }
  assert (Hshape : ∃ b r,
            set_status IN_PROGRESS (place_initial_tile (deal_initial_hands g0))
            = mkGameState gid IN_PROGRESS (players (deal_initial_hands g0))
                b r 0 0 now None 0).
  { unfold place_initial_tile.
    destruct (remaining_tiles (deal_initial_hands g0)) eqn:E;
      eexists _, _; unfold set_status; cbn; reflexivity. }
  destruct Hshape as (b & r & ->).
  constructor; cbn [players current_player_index turn_number
                    consecutive_passes status winner_id].
  - intros Hnil%(f_equal length). rewrite Hlen in Hnil. simpl in Hnil. lia.
  - rewrite Hlen. lia.
  - rewrite Hlen. split; [lia|]. by rewrite Z.mod_0_l by lia.
  - rewrite Hlen. lia.
  - intros _. rewrite Hlen. split; [lia|done].
  - done.
  - intros p Hp. by apply Hplayer.
  - intros p Hp. destruct (Hplayer p Hp) as [_ ->]. done.
Qed.

Lemma create_game_well_formed uuid now rnd request games :
  well_formed (create_game uuid now rnd request games).1.
Proof.
  rewrite create_game_unfold. apply started_well_formed; [done|].
  unfold initial_players. intros q [->|Hq]%elem_of_cons; [done|].
  apply list_elem_of_In, in_map_iff in Hq as (i & <- & _). done.
Qed.

Lemma py_max_elem {A} (key : A → Z) (l : list A) w :
  py_max key l = Some w → w ∈ l.
Proof.
  intros (l1 & l2 & -> & _)%py_max_first.
  apply elem_of_app. right. by left.
Qed.

Lemma perform_action_well_formed rnd request games g g' games' :
  well_formed g →
  find_one (game_id request) games = Some g →
  perform_action rnd request games = (Return g', games') →
  well_formed g'.
Proof.
  intros Hwf Hfind Hrun.
  destruct (perform_action_step _ _ _ _ _ _ Hfind Hrun)
    as (Hst & _ & k & p & g1 & g2 & Hk & Hp & _ & Hbranch & Hnext & Hend).
  destruct (branch_fields rnd _ g k p g1 Hp Hbranch)
    as (_ & _ & Bi & Bt & Bc & _ & Bs
        & p1 & Bp & Bid & _ & _ & _ & Bsc & Bh & _).
  destruct (finish_fields g1 g2 g' Hnext Hend)
    as (_ & Fp & _ & _ & Fc & _ & _ & Fi & Ft & Fs).
  destruct Hwf as [Wp Wi [Wt0 Wt] Wc Win Wfin Wh Ws].
  destruct (Win Hst) as [Wlt Wnone].
  assert (Hlen : length (players g1) = length (players g))
    by (by rewrite Bp, length_insert).
  assert (Hk' : (k < length (players g))%nat) by (by eapply lookup_lt_Some).
  assert (Hp1 : p1 ∈ players g').
  { rewrite Fp, Bp. apply list_elem_of_lookup. exists k.
    by apply list_lookup_insert_eq. }
  assert (Hin : p ∈ players g) by (apply list_elem_of_lookup; eauto).
  rewrite Hlen, Bi, Bt, Bc in *.
  set (P := Z.of_nat (length (players g))) in *.
  assert (HP : 0 < P) by (unfold P; lia).
  assert (Hc1 : 0 ≤ (if decide (action_type (action request) = PASS)
                     then consecutive_passes g + 1 else 0) ≤ P)
    by (case_decide; lia).
  constructor.
  - rewrite Fp. intros Hnil%(f_equal length). rewrite Hlen in Hnil.
    simpl in Hnil. lia.
  - rewrite Fp, Hlen, Fi. fold P. apply Z.mod_pos_bound. lia.
  - rewrite Fp, Hlen, Fi, Ft. fold P. split; [lia|].
    rewrite Wt. by rewrite Zplus_mod_idemp_l.
  - rewrite Fp, Hlen, Fc. by fold P.
  - intros Hst'. rewrite Fp, Hlen, Fc. fold P.
    case_bool_decide as Hge.
    + destruct Fs as [Hfin _]. congruence.
    + destruct Fs as [Fst Fw]. split; [lia|]. rewrite Fw.
      destruct Bs as [[_ ->]|(_ & Hfin & _)]; [done|congruence].
  - intros Hst'. case_bool_decide as Hge.
    + destruct Fs as (Hfin & w & Hmax & Hw). split; [done|].
      exists w. split; [|done]. rewrite Fp. by eapply py_max_elem.
    + destruct Fs as [Fst Fw]. rewrite Fst in *.
      destruct Bs as [[Hs _]|(_ & Hfin & Hw)]; [congruence|].
      split; [done|]. exists p1. split; [done|]. by rewrite Fw, Hw, Bid.
  - intros q Hq. rewrite Fp, Bp in Hq.
    apply elem_of_insert_inv in Hq as [->|Hq]; [|by apply Wh].
    specialize (Wh p Hin). lia.
  - intros q Hq. rewrite Fp, Bp in Hq.
    apply elem_of_insert_inv in Hq as [->|Hq]; [|by apply Ws].
    specialize (Ws p Hin). lia.
Qed.

Lemma reachable_well_formed ok g : reachable_by ok g → well_formed g.
Proof.
  induction 1 as [uuid now rnd request games
                 |rnd request games g g' games' _ IH Hfind _ Hrun].
  - apply create_game_well_formed.
  - by eapply perform_action_well_formed.
Qed.

(** ** What every successful action does *)

(** X4. A successful action moves the turn on by one: [turn_number] grows
    by 1 and [current_player_index] becomes (index + 1) mod P. The game
    keeps its id and creation time, and the players keep their number,
    order, ids, names, types and activity flags. *)
Theorem action_advances_turn (rnd : nat → nat) (request : GameActionRequest)
    (games games' : list GameState) (g g' : GameState) :
  find_one (game_id request) games = Some g →
  perform_action rnd request games = (Return g', games') →
  turn_number g' = turn_number g + 1
  ∧ current_player_index g'
    = (current_player_index g + 1) `mod` Z.of_nat (length (players g))
  ∧ GameState_id g' = GameState_id g ∧ created_at g' = created_at g
  ∧ map (λ p, (Player_id p, name p, player_type p, is_active p)) (players g')
    = map (λ p, (Player_id p, name p, player_type p, is_active p)) (players g).
Proof.
  intros Hfind Hrun.
  destruct (perform_action_step _ _ _ _ _ _ Hfind Hrun)
    as (Hst & _ & k & p & g1 & g2 & Hk & Hp & _ & Hbranch & Hnext & Hend).
  destruct (branch_fields rnd _ g k p g1 Hp Hbranch)
    as (Bg & Bn & Bi & Bt & _ & _ & _
        & p1 & Bp & Bid & Bname & Bty & Bact & _).
  destruct (finish_fields g1 g2 g' Hnext Hend)
    as (_ & Fp & _ & _ & _ & Fg & Fn & Fi & Ft & _).
  rewrite Ft, Fi, Fg, Fn, Fp, Bt, Bi, Bg, Bn, Bp, length_insert.
  split_and!; try done.
  apply list_eq. intros j. rewrite !list_lookup_fmap.
  destruct (decide (j = k)) as [->|Hne].
  - rewrite list_lookup_insert_eq by (by eapply lookup_lt_Some).
    rewrite Hp. simpl. by rewrite Bid, Bname, Bty, Bact.
  - by rewrite list_lookup_insert_ne.
Qed.

(** X5. In every state a game reaches -- whatever the actions -- there is
    at least one player, [current_player_index] is a valid index into
    [players], and the player to move is determined by the turn number:
    index = turn_number mod P. *)
Theorem player_to_move (g : GameState) :
  reachable g →
  players g ≠ []
  ∧ 0 ≤ current_player_index g < Z.of_nat (length (players g))
  ∧ 0 ≤ turn_number g
  ∧ current_player_index g
    = turn_number g `mod` Z.of_nat (length (players g))
  ∧ ∃ p, players g !! Z.to_nat (current_player_index g) = Some p
         ∧ py_index (length (players g)) (current_player_index g)
           = Some (Z.to_nat (current_player_index g)).
Proof.
  intros [Wp [Wi1 Wi2] [Wt0 Wt] _ _ _ _ _]%reachable_well_formed.
  split_and!; try done.
  destruct (lookup_lt_is_Some_2 (players g)
              (Z.to_nat (current_player_index g))) as [p Hp]; [lia|].
  exists p. split; [done|]. unfold py_index.
  by rewrite bool_decide_eq_true_2.
Qed.


(** X7. A pass adds one to [consecutive_passes], an exchange or a
    placement resets it to 0. In every reached state the count lies between
    0 and the number of players, and stays below that number while the
    game is in progress. A pass ends the game exactly when it is the P-th
    in a row. *)
Theorem passes_in_a_row :
  (∀ rnd request games g g' games',
     find_one (game_id request) games = Some g →
     perform_action rnd request games = (Return g', games') →
     consecutive_passes g'
     = if decide (action_type (action request) = PASS)
       then consecutive_passes g + 1 else 0)
  ∧ (∀ g, reachable g →
       0 ≤ consecutive_passes g ≤ Z.of_nat (length (players g))
       ∧ (status g = IN_PROGRESS →
          consecutive_passes g < Z.of_nat (length (players g))))
  ∧ (∀ rnd request games g g' games',
       find_one (game_id request) games = Some g →
       perform_action rnd request games = (Return g', games') →
       action_type (action request) = PASS →
       status g'
       = if bool_decide (Z.of_nat (length (players g))
                         ≤ consecutive_passes g + 1)
         then FINISHED else IN_PROGRESS).
Proof.
  split_and!.
  - intros rnd request games g g' games' Hfind Hrun.
    destruct (perform_action_step _ _ _ _ _ _ Hfind Hrun)
      as (Hst & _ & k & p & g1 & g2 & Hk & Hp & _ & Hbranch & Hnext & Hend).
    destruct (branch_fields rnd _ g k p g1 Hp Hbranch)
      as (_ & _ & _ & _ & Bc & _).
    destruct (finish_fields g1 g2 g' Hnext Hend)
      as (_ & _ & _ & _ & Fc & _).
    by rewrite Fc, Bc.
  - intros g [_ _ _ Wc Win _ _ _]%reachable_well_formed.
    split; [done|]. intros Hst. by apply Win.
  - intros rnd request games g g' games' Hfind Hrun Hty.
    destruct (perform_action_step _ _ _ _ _ _ Hfind Hrun)
      as (Hst & _ & k & p & g1 & g2 & Hk & Hp & _ & Hbranch & Hnext & Hend).
    destruct (finish_fields g1 g2 g' Hnext Hend)
      as (_ & _ & _ & _ & _ & _ & _ & _ & _ & Fs).
    rewrite Hty in Hbranch. subst g1. simpl in Fs.
    case_bool_decide; [by destruct Fs|]. destruct Fs as [-> _]. done.
Qed.

(** X8. A successful action touches the acting player only: every other
    player is exactly as before. No player's score decreases and no
    player's hand grows. *)
Theorem players_after_action (rnd : nat → nat) (request : GameActionRequest)
    (games games' : list GameState) (g g' : GameState) (k : nat) :
  find_one (game_id request) games = Some g →
  perform_action rnd request games = (Return g', games') →
  py_index (length (players g)) (current_player_index g) = Some k →
  length (players g') = length (players g)
  ∧ (∀ j, j ≠ k → players g' !! j = players g !! j)
  ∧ (∀ j q q', players g !! j = Some q → players g' !! j = Some q' →
       score q ≤ score q' ∧ (length (hand q') ≤ length (hand q))%nat).
Proof.
  intros Hfind Hrun Hk.
  destruct (perform_action_step _ _ _ _ _ _ Hfind Hrun)
    as (Hst & _ & k0 & p & g1 & g2 & Hk0 & Hp & _ & Hbranch & Hnext & Hend).
  assert (k0 = k) as -> by congruence.
  destruct (branch_fields rnd _ g k p g1 Hp Hbranch)
    as (_ & _ & _ & _ & _ & _ & _ & p1 & Bp & _ & _ & _ & _ & Bsc & Bh & _).
  destruct (finish_fields g1 g2 g' Hnext Hend) as (_ & Fp & _).
  rewrite Fp, Bp. split_and!.
  - by rewrite length_insert.
  - intros j Hj. by rewrite list_lookup_insert_ne.
  - intros j q q' Hq Hq'. destruct (decide (j = k)) as [->|Hne].
    + rewrite list_lookup_insert_eq in Hq' by (by eapply lookup_lt_Some).
      injection Hq' as <-. assert (q = p) as -> by congruence. done.
    + rewrite list_lookup_insert_ne in Hq' by done.
      assert (q' = q) as -> by congruence. split; lia.
Qed.

(** X9. The board only grows at its end: the placed tiles of the old board
    are a prefix of the new one. A pass or an exchange leaves the board as
    it is; a placement appends one entry per (tile, position) pair of the
    request, in order, holding the tile as sent, stamped with the acting
    player's id and the turn number before the action. *)
Theorem board_after_action (rnd : nat → nat) (request : GameActionRequest)
    (games games' : list GameState) (g g' : GameState) :
  find_one (game_id request) games = Some g →
  perform_action rnd request games = (Return g', games') →
  board g `prefix_of` board g'
  ∧ (action_type (action request) ≠ PLACE → board g' = board g)
  ∧ (action_type (action request) = PLACE →
     ∃ ts ps,
       tiles (action request) = Some ts
       ∧ positions (action request) = Some ps
       ∧ board g'
         = board g
           ++ map (λ tp, mkPlacedTile tp.1 tp.2 (player_id (action request))
                           (turn_number g))
                (zip ts ps)).
Proof.
  intros Hfind Hrun.
  destruct (perform_action_step _ _ _ _ _ _ Hfind Hrun)
    as (Hst & _ & k & p & g1 & g2 & Hk & Hp & Hid & Hbranch & Hnext & Hend).
  destruct (finish_fields g1 g2 g' Hnext Hend) as (_ & _ & Fb & _).
  rewrite Fb. destruct (action_type (action request)) eqn:Hty.
  - subst g1. simpl. by split_and!.
  - rewrite (exchange_run rnd k g p Hp) in Hbranch. injection Hbranch as <-.
    simpl. by split_and!.
  - apply (place_Return _ _ _ p) in Hbranch
      as (ts & ps & h1 & Hts & Hps & _ & _ & _ & _ & ->); [|done].
    simpl. split_and!; [by apply prefix_app_r|done|].
    intros _. exists ts, ps. by rewrite Hid.
Qed.

(** X10. In every state a game reaches no hand holds more than six tiles
    and no score is negative. *)
Theorem hands_at_most_six (g : GameState) (p : Player) :
  reachable g → p ∈ players g →
  (length (hand p) ≤ 6)%nat ∧ 0 ≤ score p.
Proof.
  intros [_ _ _ _ _ _ Wh Ws]%reachable_well_formed Hp.
  split; [by apply Wh|by apply Ws].
Qed.

(** X11. A pass moves no tile and no point: hands, scores, board and draw
    pile are what they were. *)
Theorem pass_keeps_tiles (rnd : nat → nat) (request : GameActionRequest)
    (games games' : list GameState) (g g' : GameState) :
  find_one (game_id request) games = Some g →
  perform_action rnd request games = (Return g', games') →
  action_type (action request) = PASS →
  players g' = players g ∧ board g' = board g
  ∧ remaining_tiles g' = remaining_tiles g.
Proof.
  intros Hfind Hrun Hty.
  destruct (perform_action_step _ _ _ _ _ _ Hfind Hrun)
    as (Hst & _ & k & p & g1 & g2 & Hk & Hp & _ & Hbranch & Hnext & Hend).
  destruct (finish_fields g1 g2 g' Hnext Hend) as (_ & Fp & Fb & Fr & _).
  rewrite Hty in Hbranch. subst g1. by rewrite Fp, Fb, Fr.
Qed.

(** ** Exceptions *)

Lemma remove_loop_Raise k ts g p e g1 :
  players g !! k = Some p →
  for_each (remove_from_hand k) ts g = (Raise e, g1) →
  e = HTTPException 400 "Tile not in hand".
Proof.
  intros Hp Hrun.
  destruct (remove_tiles ts (hand p)) as [h1|] eqn:Hrem.
  - by rewrite (remove_loop k ts g p h1 Hp Hrem) in Hrun.
  - pose proof (remove_loop_fail k ts g p Hp Hrem) as Hfail.
    rewrite Hrun in Hfail. simpl in Hfail. congruence.
Qed.

(** A placement fails with status 400 or not at all. *)
Lemma place_Raise k a g p e g1 :
  players g !! k = Some p →
  place k a g = (Raise e, g1) →
  ∃ d, e = HTTPException 400 d.
Proof.
  intros Hp Hrun.
  destruct (tiles a) as [ts|] eqn:Hts;
    [|unfold place in Hrun; rewrite Hts in Hrun; injection Hrun as <- _; eauto].
  destruct (positions a) as [ps|] eqn:Hps;
    [|unfold place in Hrun; rewrite Hts, Hps in Hrun;
      injection Hrun as <- _; eauto].
  destruct (decide (ts = [])) as [->|Hts0].
  { unfold place in Hrun. rewrite Hts, Hps in Hrun. simpl in Hrun.
    injection Hrun as <- _. eauto. }
  destruct (decide (ps = [])) as [->|Hps0].
  { unfold place in Hrun. rewrite Hts, Hps in Hrun.
    rewrite bool_decide_eq_false_2 in Hrun by done. simpl in Hrun.
    injection Hrun as <- _. eauto. }
  destruct (all_valid (zip ts ps) (board g)) eqn:Hval.
  - destruct (remove_tiles ts (hand p)) as [h1|] eqn:Hrem.
    + by rewrite (place_run k a g p ts ps h1) in Hrun.
    + pose proof (place_not_in_hand k a g p ts ps Hp Hts Hps Hts0 Hps0
                    Hval Hrem) as Hfail.
      rewrite Hrun in Hfail. simpl in Hfail. injection Hfail as ->. eauto.
  - unfold place in Hrun. rewrite Hts, Hps in Hrun.
    rewrite !bool_decide_eq_false_2 in Hrun by done. simpl in Hrun.
    unfold mbind at 1, M_bind at 1 in Hrun. rewrite validate_loop in Hrun.
    destruct (List.find _ (enumerate (zip ts ps))) as [itp|] eqn:Hfind.
    + injection Hrun as <- _. eauto.
    + apply (find_enumerate_None
               (λ tp, validate_tile_placement tp.1 tp.2 (board g))) in Hfind.
      unfold all_valid in Hval. congruence.
Qed.

Lemma apply_action_Raise rnd a g e g1 :
  apply_action rnd a g = (Raise e, g1) →
  (e = IndexError
   ∧ py_index (length (players g)) (current_player_index g) = None)
  ∨ ∃ d, e = HTTPException 400 d.
Proof.
  intros Hrun.
  destruct (decide (status g = IN_PROGRESS)) as [Hst|Hst].
  2:{ unfold apply_action in Hrun.
      unfold mbind at 1, M_bind at 1, get at 1 in Hrun.
      rewrite bool_decide_eq_true_2 in Hrun by done.
      injection Hrun as <- _. eauto. }
  destruct (py_index (length (players g)) (current_player_index g))
    as [k|] eqn:Hk.
  2:{ unfold apply_action in Hrun.
      unfold mbind at 1, M_bind at 1, get at 1 in Hrun.
      rewrite bool_decide_eq_false_2 in Hrun by (by intros ?).
      rewrite Hk in Hrun. injection Hrun as <- _. by left. }
  destruct (lookup_lt_is_Some_2 (players g) k (py_index_lt _ _ _ Hk))
    as [p Hp].
  destruct (decide (player_id a = Player_id p)) as [Hid|Hid].
  2:{ rewrite (apply_action_out_of_turn rnd a g k p) in Hrun by done.
      injection Hrun as <- _. eauto. }
  rewrite (apply_action_branch rnd a g k p) in Hrun by done.
  unfold mbind at 1, M_bind at 1 in Hrun.
  destruct (match action_type a with
            | PASS => modify _
            | EXCHANGE => exchange rnd k
            | PLACE => place k a
            end g) as [[[]|e0] g0] eqn:Hbranch.
  - exfalso.
    assert (Hb : match action_type a with
                 | PASS => g0 = set_consecutive_passes
                                  (consecutive_passes g + 1) g
                 | EXCHANGE => exchange rnd k g = (Return (), g0)
                 | PLACE => place k a g = (Return (), g0)
                 end).
    { destruct (action_type a); [|done..].
      unfold modify in Hbranch. congruence. }
    destruct (branch_fields rnd a g k p g0 Hp Hb)
      as (_ & _ & _ & _ & _ & _ & _ & p1 & Bp & _).
    assert (Hne : players g0 ≠ []).
    { rewrite Bp. intros Hnil%(f_equal length).
      rewrite length_insert in Hnil. apply lookup_lt_Some in Hp.
      simpl in Hnil. lia. }
    unfold mbind at 1, M_bind at 1 in Hrun.
    rewrite (next_player_run g0 Hne) in Hrun.
    rewrite check_game_end_run in Hrun. simpl in Hrun.
    destruct (bool_decide _) in Hrun; [|done].
    destruct (players g0) as [|q l]; [done|]. simpl in Hrun. done.
  - injection Hrun as <- _. right.
    destruct (action_type a) eqn:Hty.
    + by unfold modify in Hbranch.
    + by rewrite (exchange_run rnd k g p Hp) in Hbranch.
    + by eapply place_Raise.
Qed.

(** X12. [perform_action] never fails with anything but an HTTP error
    once the current player can be looked up: the only other exception is
    the [IndexError] of a stored [current_player_index] outside the players
    list. On a game in a reached state every failure is a 400. *)
Theorem perform_action_http_errors (rnd : nat → nat)
    (request : GameActionRequest) (games games' : list GameState)
    (e : Exception) :
  perform_action rnd request games = (Raise e, games') →
  (e = HTTPException 404 "Game not found"
   ∧ find_one (game_id request) games = None)
  ∨ (∃ g, find_one (game_id request) games = Some g
          ∧ ((∃ d, e = HTTPException 400 d)
             ∨ (e = IndexError ∧ ¬ reachable g
                ∧ py_index (length (players g)) (current_player_index g)
                  = None))).
Proof.
  unfold perform_action.
  destruct (find_one (game_id request) games) as [g|] eqn:Hfind.
  2:{ intros [= <- _]. by left. }
  destruct (apply_action rnd (action request) g) as [[[]|e0] g1] eqn:Hrun;
    [done|].
  intros [= <- _]. right. exists g. split; [done|].
  apply apply_action_Raise in Hrun as [[-> Hidx]|Hhttp]; [|by left].
  right. split; [done|]. split; [|done].
  intros Hreach. apply reachable_well_formed in Hreach as [_ Wi _ _ _ _ _ _].
  unfold py_index in Hidx. by rewrite bool_decide_eq_true_2 in Hidx.
Qed.

(** ** The store *)

Lemma find_one_id gid games g :
  find_one gid games = Some g → GameState_id g = gid.
Proof.
  unfold find_one. intros [_ H]%find_some. by apply String.eqb_eq.
Qed.

Lemma find_one_replace gid doc games g :
  find_one gid games = Some g → GameState_id doc = gid →
  find_one gid (replace_one gid doc games) = Some doc.
Proof.
  unfold find_one. intros Hfind Hid.
  induction games as [|d rest IH]; simpl in *; [done|].
  destruct (String.eqb (GameState_id d) gid) eqn:E; simpl.
  - by rewrite Hid, String.eqb_refl.
  - rewrite E. by apply IH.
Qed.

Lemma find_one_replace_other gid gid' doc games :
  gid' ≠ gid → GameState_id doc = gid →
  find_one gid' (replace_one gid doc games) = find_one gid' games.
Proof.
  unfold find_one. intros Hne Hid.
  induction games as [|d rest IH]; simpl; [done|].
  destruct (String.eqb (GameState_id d) gid) eqn:E; simpl.
  - apply String.eqb_eq in E.
    rewrite Hid, E. by rewrite (proj2 (String.eqb_neq gid gid')).
  - by rewrite IH.
Qed.

Lemma length_replace_one gid doc games :
  length (replace_one gid doc games) = length games.
Proof.
  induction games as [|d rest IH]; simpl; [done|].
  destruct (String.eqb (GameState_id d) gid); simpl; by rewrite ?IH.
Qed.

(** X13. What a successful [perform_action] returns is what the store
    then holds under the game's id: [get_game] answers with the new state.
    The store keeps its size and every game stored under another id is
    found as before. *)
Theorem perform_action_stores_result (rnd : nat → nat)
    (request : GameActionRequest) (games games' : list GameState)
    (g g' : GameState) :
  find_one (game_id request) games = Some g →
  perform_action rnd request games = (Return g', games') →
  get_game (game_id request) games' = Return g'
  ∧ length games' = length games
  ∧ (∀ gid, gid ≠ game_id request →
       get_game gid games' = get_game gid games).
Proof.
  intros Hfind Hrun.
  destruct (perform_action_step _ _ _ _ _ _ Hfind Hrun)
    as (Hst & -> & k & p & g1 & g2 & Hk & Hp & _ & Hbranch & Hnext & Hend).
  destruct (branch_fields rnd _ g k p g1 Hp Hbranch) as (Bg & _).
  destruct (finish_fields g1 g2 g' Hnext Hend)
    as (_ & _ & _ & _ & _ & Fg & _).
  assert (Hid : GameState_id g' = game_id request)
    by (rewrite Fg, Bg; by apply find_one_id with games).
  unfold get_game. split_and!.
  - by rewrite (find_one_replace _ _ _ g).
  - apply length_replace_one.
  - intros gid Hne. by rewrite find_one_replace_other.
Qed.

Lemma find_one_app gid l1 l2 :
  find_one gid (l1 ++ l2)
  = match find_one gid l1 with
    | Some g => Some g
    | None => find_one gid l2
    end.
Proof.
  unfold find_one. induction l1 as [|d l1 IH]; simpl; [done|].
  by destruct (String.eqb (GameState_id d) gid).
Qed.

(** X14. [create_game] appends the new game to the store. Every game found
    under some id before is found under it afterwards -- so if the new id
    is already taken, the older game keeps answering for it -- and when the
    id is new, [get_game] answers with the game just created. An id that is
    not stored gives 404. *)
Theorem create_game_stores_game (uuid : nat → string) (now : Z)
    (rnd : nat → nat) (request : CreateGameRequest) (games : list GameState) :
  let g := (create_game uuid now rnd request games).1 in
  let games' := (create_game uuid now rnd request games).2 in
  games' = games ++ [g]
  ∧ (∀ gid g0, get_game gid games = Return g0 →
       get_game gid games' = Return g0)
  ∧ (find_one (uuid O) games = None → get_game (uuid O) games' = Return g)
  ∧ (∀ gid, gid ≠ uuid O → find_one gid games = None →
       get_game gid games' = Raise (HTTPException 404 "Game not found")).
Proof.
  cbv zeta.
  assert (Hid : GameState_id (create_game uuid now rnd request games).1
                = uuid O).
  { rewrite create_game_unfold. unfold place_initial_tile.
    by destruct (remaining_tiles _). }
  assert (Hstore : (create_game uuid now rnd request games).2
                   = games ++ [(create_game uuid now rnd request games).1])
    by done.
  rewrite Hstore.
  generalize dependent (create_game uuid now rnd request games).1.
  intros g Hid _. unfold get_game. split_and!.
  - done.
  - intros gid g0 Hget. rewrite find_one_app.
    by destruct (find_one gid games).
  - intros Hnone. rewrite find_one_app, Hnone.
    unfold find_one. simpl. by rewrite Hid, String.eqb_refl.
  - intros gid Hne Hnone. rewrite find_one_app, Hnone.
    unfold find_one. simpl.
    by rewrite Hid, (proj2 (String.eqb_neq (uuid O) gid)).
Qed.

(** ** Refused requests *)

Lemma find_zip_seq_first {A} (f : A → bool) (l : list A) n i x :
  l !! i = Some x → f x = false →
  (∀ j y, (j < i)%nat → l !! j = Some y → f y = true) →
  List.find (λ ix, negb (f ix.2)) (zip (seq n (length l)) l)
  = Some ((n + i)%nat, x).
Proof.
  revert n i. induction l as [|y l IH]; intros n i Hi Hx Hbefore; [done|].
  destruct i as [|i].
  - simpl in Hi. injection Hi as ->. simpl. rewrite Hx. simpl.
    by rewrite Nat.add_0_r.
  - simpl in Hi. simpl. rewrite (Hbefore O y) by (done || lia). simpl.
    rewrite (IH (S n) i Hi Hx).
    + do 2 f_equal. lia.
    + intros j z Hj Hz. apply (Hbefore (S j) z); [lia|done].
Qed.

Lemma find_enumerate_first {A} (f : A → bool) (l : list A) i x :
  l !! i = Some x → f x = false →
  (∀ j y, (j < i)%nat → l !! j = Some y → f y = true) →
  List.find (λ ix, negb (f ix.2)) (enumerate l) = Some (i, x).
Proof. apply (find_zip_seq_first f l O). Qed.

Lemma apply_action_place_validation rnd a g k p ts ps :
  status g = IN_PROGRESS →
  py_index (length (players g)) (current_player_index g) = Some k →
  players g !! k = Some p →
  player_id a = Player_id p →
  action_type a = PLACE →
  tiles a = Some ts → positions a = Some ps → ts ≠ [] → ps ≠ [] →
  apply_action rnd a g
  = match List.find
            (λ itp, negb (validate_tile_placement itp.2.1 itp.2.2 (board g)))
            (enumerate (zip ts ps)) with
    | Some itp =>
        (Raise (HTTPException 400
                  ("Invalid placement for tile " +:+ pretty itp.1)), g)
    | None => apply_action rnd a g
    end.
Proof.
  intros Hst Hk Hp Hid Hty Hts Hps Hts0 Hps0.
  destruct (List.find _ (enumerate (zip ts ps))) as [itp|] eqn:Hfind; [|done].
  rewrite (apply_action_branch rnd a g k p) by done. rewrite Hty.
  unfold mbind at 1, M_bind at 1. unfold place. rewrite Hts, Hps.
  rewrite !bool_decide_eq_false_2 by done. simpl.
  unfold mbind at 1, M_bind at 1. by rewrite validate_loop, Hfind.
Qed.

(** X15. The refusals of [perform_action], in the order they are checked.
    An id that is not stored gives 404 "Game not found". A stored game that
    is not in progress gives 400 "Game is not in progress" whatever the
    request. For the current player of a game in progress, a place action
    without tiles or without positions ([None] or empty) gives 400 "Tiles
    and positions required for placement"; otherwise, if the pair at index
    [i] is the first that fails validation against the board, it gives 400
    "Invalid placement for tile i", whether or not the tiles are held. The
    store is left as it was each time. *)
Theorem perform_action_refusals (rnd : nat → nat)
    (request : GameActionRequest) (games : list GameState) :
  (find_one (game_id request) games = None →
   perform_action rnd request games
   = (Raise (HTTPException 404 "Game not found"), games))
  ∧ (∀ g, find_one (game_id request) games = Some g →
       status g ≠ IN_PROGRESS →
       perform_action rnd request games
       = (Raise (HTTPException 400 "Game is not in progress"), games))
  ∧ (∀ g k p,
       find_one (game_id request) games = Some g →
       status g = IN_PROGRESS →
       py_index (length (players g)) (current_player_index g) = Some k →
       players g !! k = Some p →
       player_id (action request) = Player_id p →
       action_type (action request) = PLACE →
       (tiles (action request) = None ∨ tiles (action request) = Some []
        ∨ positions (action request) = None
        ∨ positions (action request) = Some []) →
       perform_action rnd request games
       = (Raise (HTTPException 400
                   "Tiles and positions required for placement"), games))
  ∧ (∀ g k p ts ps i t pos,
       find_one (game_id request) games = Some g →
       status g = IN_PROGRESS →
       py_index (length (players g)) (current_player_index g) = Some k →
       players g !! k = Some p →
       player_id (action request) = Player_id p →
       action_type (action request) = PLACE →
       tiles (action request) = Some ts →
       positions (action request) = Some ps →
       zip ts ps !! i = Some (t, pos) →
       validate_tile_placement t pos (board g) = false →
       (∀ j t' pos', (j < i)%nat → zip ts ps !! j = Some (t', pos') →
          validate_tile_placement t' pos' (board g) = true) →
       perform_action rnd request games
       = (Raise (HTTPException 400
                   ("Invalid placement for tile " +:+ pretty i)), games)).
Proof.
  split_and!.
  - intros Hfind. unfold perform_action. by rewrite Hfind.
  - intros g Hfind Hst. unfold perform_action. rewrite Hfind.
    unfold apply_action. unfold mbind at 1, M_bind at 1, get at 1.
    by rewrite bool_decide_eq_true_2 by done.
  - intros g k p Hfind Hst Hk Hp Hid Hty Hmiss.
    unfold perform_action. rewrite Hfind.
    rewrite (apply_action_branch rnd _ g k p) by done. rewrite Hty.
    unfold mbind at 1, M_bind at 1. unfold place.
    destruct Hmiss as [Hm | [Hm | [Hm | Hm]]]; rewrite Hm.
    + done.
    + by destruct (positions (action request)).
    + by destruct (tiles (action request)).
    + destruct (tiles (action request)) as [ts|]; [|done].
      rewrite (bool_decide_eq_true_2 (@nil Position = [])) by done.
      by rewrite orb_true_r.
  - intros g k p ts ps i t pos Hfind Hst Hk Hp Hid Hty Hts Hps Hi Hbad Hok.
    assert (Hts0 : ts ≠ []) by (intros ->; by destruct i).
    assert (Hps0 : ps ≠ []) by (intros ->; destruct ts, i; done).
    unfold perform_action. rewrite Hfind.
    rewrite (apply_action_place_validation rnd _ g k p ts ps) by done.
    rewrite (find_enumerate_first
               (λ tp, validate_tile_placement tp.1 tp.2 (board g))
               (zip ts ps) i (t, pos)); [done..|].
    intros j [t' pos'] Hj Hz. by apply (Hok j).
Qed.

(** ** Taking a tile out of a hand *)

Lemma py_next_first {A} (f : A → bool) (l1 l2 : list A) x :
  f x = true → (∀ y, y ∈ l1 → f y = false) →
  py_next f (l1 ++ x :: l2) = Some x.
Proof.
  unfold py_next. intros Hx Hl1.
  induction l1 as [|y l1 IH]; simpl; [by rewrite Hx|].
  rewrite (Hl1 y) by (by left). apply IH. intros z Hz. apply Hl1. by right.
Qed.

Lemma py_next_None {A} (f : A → bool) (l : list A) :
  (∀ y, y ∈ l → f y = false) → py_next f l = None.
Proof.
  unfold py_next. intros Hl.
  induction l as [|y l IH]; simpl; [done|].
  rewrite (Hl y) by (by left). apply IH. intros z Hz. apply Hl. by right.
Qed.

Lemma py_remove_first `{EqDecision A} (l1 l2 : list A) x :
  x ∉ l1 → py_remove x (l1 ++ x :: l2) = Some (l1 ++ l2).
Proof.
  intros Hx. induction l1 as [|y l1 IH]; simpl.
  - by rewrite decide_True.
  - rewrite decide_False by (intros ->; apply Hx; by left).
    rewrite IH; [done|]. intros Hin. apply Hx. by right.
Qed.

(** X16. Taking a tile out of the hand removes the first tile of the hand
    with the requested shape and color -- whatever its id -- and keeps the
    other tiles in their order; when no tile of the hand has that shape and
    color the request fails with 400 "Tile not in hand" and the hand is as
    it was. *)
Theorem remove_from_hand_first (k : nat) (t : Tile) (g : GameState)
    (p : Player) :
  players g !! k = Some p →
  (∀ l1 x l2,
     hand p = l1 ++ x :: l2 →
     shape x = shape t → color x = color t →
     (∀ y, y ∈ l1 → ¬ (shape y = shape t ∧ color y = color t)) →
     remove_from_hand k t g
     = (Return (), set_players (<[k := set_hand (l1 ++ l2) p]> (players g)) g))
  ∧ ((∀ y, y ∈ hand p → ¬ (shape y = shape t ∧ color y = color t)) →
     remove_from_hand k t g
     = (Raise (HTTPException 400 "Tile not in hand"), g)).
Proof.
  intros Hp.
  assert (Hsame : ∀ y, same_type t y = true
                       ↔ shape y = shape t ∧ color y = color t).
  { intros y. unfold same_type. by rewrite andb_true_iff, !String.eqb_eq. }
  assert (Hnot : ∀ y, ¬ (shape y = shape t ∧ color y = color t) →
                      same_type t y = false).
  { intros y Hy. apply not_true_is_false. by rewrite Hsame. }
  split.
  - intros l1 x l2 Hhand Hsh Hco Hl1.
    unfold remove_from_hand, mbind, M_bind, current, modify.
    rewrite Hp, Hhand.
    rewrite (py_next_first (same_type t) l1 l2 x);
      [|by apply Hsame|by intros y Hy; apply Hnot, Hl1].
    rewrite py_remove_first.
    + by erewrite update_player_at by done.
    + intros Hin. by apply (Hl1 x Hin).
  - intros Hnone. unfold remove_from_hand, mbind, M_bind, current.
    rewrite Hp. rewrite py_next_None; [done|].
    intros y Hy. by apply Hnot, Hnone.
Qed.

(** ** Neighbors *)

(** X17. [get_neighbors] answers with the four directions in the order
    up, down, left, right, where up is one row less and left one column
    less. Each direction holds the tile standing on that position -- the
    one placed last, should several share it -- and [None] exactly when no
    board tile has that position. *)
Theorem get_neighbors_contract (pos : Position) (b : list PlacedTile) :
  get_neighbors pos b
  = [("up", tile_at (mkPosition (row pos - 1) (col pos)) b);
     ("down", tile_at (mkPosition (row pos + 1) (col pos)) b);
     ("left", tile_at (mkPosition (row pos) (col pos - 1)) b);
     ("right", tile_at (mkPosition (row pos) (col pos + 1)) b)]
  ∧ (∀ n, tile_at n b = None ↔ ¬ occupied n b)
  ∧ (∀ n pt, tile_at n b = Some pt →
       ∃ l1 l2, b = l1 ++ pt :: l2 ∧ position pt = n
                ∧ ∀ pt', pt' ∈ l2 → position pt' ≠ n).
Proof.
  split_and!.
  - unfold get_neighbors. by rewrite !board_dict_lookup.
  - intros n. rewrite occupied_tile_at.
    destruct (tile_at n b) as [pt|].
    + split; [done|]. intros H. exfalso. apply H. by eexists.
    + split; [|done]. intros _ [? ?]. done.
  - intros n pt. unfold tile_at.
    induction b as [|y b IH] using rev_ind; [done|].
    rewrite filter_app.
    destruct (decide (position y = n)) as [Hy|Hy].
    + rewrite filter_cons_True, filter_nil by done. rewrite last_snoc.
      intros [= <-]. exists b, []. split_and!; try done.
      intros pt' Hin. by apply elem_of_nil in Hin.
    + rewrite filter_cons_False, filter_nil, app_nil_r by done.
      intros (l1 & l2 & -> & Hpos & Hlast)%IH.
      exists l1, (l2 ++ [y]). rewrite <- app_assoc. split_and!; try done.
      intros pt' [Hin|Hin%list_elem_of_singleton]%elem_of_app.
      * by apply Hlast.
      * by subst pt'.
Qed.

(** ** Tiles by type *)












(** X19. An exchange hands back the very tiles it took: the acting
    player's new hand together with the new draw pile is a rearrangement of
    the old pile together with the old hand. The player's score, the board
    and the other fields of the player are untouched. *)
Theorem exchange_returns_tiles (rnd : nat → nat)
    (request : GameActionRequest) (games games' : list GameState)
    (g g' : GameState) (k : nat) (p : Player) :
  find_one (game_id request) games = Some g →
  action_type (action request) = EXCHANGE →
  perform_action rnd request games = (Return g', games') →
  py_index (length (players g)) (current_player_index g) = Some k →
  players g !! k = Some p →
  ∃ h, players g' !! k = Some (set_hand h p)
       ∧ h ++ remaining_tiles g' ≡ₚ remaining_tiles g ++ hand p
       ∧ board g' = board g.
Proof.
  intros Hfind Hty Hrun Hk Hp.
  destruct (perform_action_step _ _ _ _ _ _ Hfind Hrun)
    as (Hst & _ & k0 & p0 & g1 & g2 & Hk0 & Hp0 & _ & Hbranch & Hnext & Hend).
  assert (k0 = k) as -> by congruence.
  assert (p0 = p) as -> by congruence.
  destruct (finish_fields g1 g2 g' Hnext Hend) as (_ & Fp & Fb & Fr & _).
  rewrite Hty in Hbranch.
  rewrite (exchange_run rnd k g p Hp) in Hbranch. injection Hbranch as <-.
  rewrite Fp, Fb, Fr. simpl. eexists. split_and!.
  - apply list_lookup_insert_eq. by eapply lookup_lt_Some.
  - by rewrite take_drop, shuffle_Permutation.
  - done.
Qed.

(** ** Scores *)

Lemma tally_Permutation b b' tp : b ≡ₚ b' → tally b tp = tally b' tp.
Proof. intros H. unfold tally, row_count, col_count. by rewrite H. Qed.

Lemma sum_tally_Permutation b placed placed' :
  placed ≡ₚ placed' →
  sum_list_with (tally b) placed = sum_list_with (tally b) placed'.
Proof. induction 1; simpl; lia. Qed.

Lemma sum_tally_board b b' placed :
  b ≡ₚ b' → sum_list_with (tally b) placed = sum_list_with (tally b') placed.
Proof.
  intros H. induction placed as [|tp placed IH]; simpl; [done|].
  by rewrite IH, (tally_Permutation b b' tp H).
Qed.

Lemma sum_tally_more b extra placed :
  (sum_list_with (tally b) placed
   ≤ sum_list_with (tally (b ++ extra)) placed)%nat.
Proof.
  induction placed as [|tp placed IH]; simpl; [done|].
  unfold tally at 1 3, row_count, col_count.
  rewrite !filter_app, !length_app. lia.
Qed.

(** X20. The score of a placement does not depend on the order of the
    placed pairs nor on the order of the board, and not on the tiles placed
    but only on their positions. It is at least 3 per tile placed -- exactly
    3 per tile on an empty board -- and more tiles on the board never lower
    it. *)
Theorem calculate_score_order (placed placed' : list (Tile * Position))
    (b b' extra : list PlacedTile) :
  (placed ≡ₚ placed' → b ≡ₚ b' →
   calculate_score placed b = calculate_score placed' b')
  ∧ (map snd placed = map snd placed' →
     calculate_score placed b = calculate_score placed' b)
  ∧ 3 * Z.of_nat (length placed) ≤ calculate_score placed b
  ∧ calculate_score placed [] = 3 * Z.of_nat (length placed)
  ∧ calculate_score placed b ≤ calculate_score placed (b ++ extra).
Proof.
  rewrite !calculate_score_formula. split_and!.
  - intros Hp Hb.
    by rewrite (sum_tally_Permutation b placed placed' Hp),
               (sum_tally_board b b' placed' Hb), Hp.
  - intros Hpos.
    assert (Hlen : length placed = length placed').
    { apply (f_equal length) in Hpos. by rewrite !length_map in Hpos. }
    rewrite Hlen. do 2 f_equal.
    revert placed' Hpos Hlen.
    induction placed as [|[t pos] placed IH]; intros [|[t' pos'] placed'];
      simpl; try done.
    intros [= -> Hrest] [= Hlen]. unfold tally at 1 3. simpl.
    by rewrite (IH placed' Hrest Hlen).
  - pose proof (calculate_score_lower placed b) as H.
    by rewrite calculate_score_formula in H.
  - assert (H : sum_list_with (tally []) placed = (2 * length placed)%nat).
    { induction placed as [|tp placed IH]; simpl; [done|].
      rewrite IH. unfold tally, row_count, col_count. simpl. lia. }
    rewrite H. lia.
  - pose proof (sum_tally_more b extra placed). lia.
Qed.

(** ** The pool and the catalog *)

Lemma unshuffled_tiles_types uuid :
  Forall (λ t, shape t ∈ SHAPES ∧ color t ∈ COLORS) (unshuffled_tiles uuid).
Proof. apply (bool_decide_unpack _). by vm_compute. Qed.


Lemma append_tiles_ids uuid sh co n acc :
  ids_in_order uuid acc → ids_in_order uuid (append_tiles uuid sh co n acc).
Proof.
  revert acc. induction n as [|n IH]; intros [l c] H; simpl; [done|].
  apply IH. unfold ids_in_order in *. cbn [fst snd] in *.
  by rewrite map_app, H, seq_S, map_app.
Qed.

Lemma pool_loop_ids uuid shs acc :
  ids_in_order uuid acc →
  ids_in_order uuid
    (foldl (λ acc sh,
       foldl (λ acc co, append_tiles uuid sh co TILES_PER_TYPE acc) acc COLORS)
       acc shs).
Proof.
  revert acc. induction shs as [|sh shs IH]; intros acc Hacc; [done|].
  cbn [foldl]. apply IH. generalize COLORS. intros cos. revert acc Hacc.
  induction cos as [|co cos IHc]; intros acc Hacc; [done|].
  cbn [foldl]. by apply IHc, append_tiles_ids.
Qed.

Lemma ids_in_order_length uuid acc :
  ids_in_order uuid acc → map Tile_id acc.1 = map uuid (seq 0 (length acc.1)).
Proof.
  unfold ids_in_order. intros H.
  assert (Hlen : length acc.1 = acc.2).
  { apply (f_equal length) in H. by rewrite !length_map, length_seq in H. }
  by rewrite Hlen.
Qed.

Lemma unshuffled_tiles_ids uuid :
  map Tile_id (unshuffled_tiles uuid)
  = map uuid (seq 0 (length (unshuffled_tiles uuid))).
Proof.
  apply ids_in_order_length, pool_loop_ids. reflexivity.
Qed.

Lemma shuffled_ids (uuid : nat → string) rnd (l : list Tile) :
  map Tile_id l = map uuid (seq 0 (length l)) →
  map Tile_id (shuffle rnd l) ≡ₚ map uuid (seq 0 (length (shuffle rnd l))).
Proof.
  intros H. rewrite shuffle_length, <- H.
  apply Permutation_map, shuffle_Permutation.
Qed.

Lemma NoDup_map_inj {A B} (f : A → B) (l : list A) :
  (∀ i j, f i = f j → i = j) → NoDup l → NoDup (map f l).
Proof.
  intros Hinj. induction 1 as [|x l Hx _ IH]; simpl; constructor; [|done].
  intros (y & Hy & Hin)%list_elem_of_In%in_map_iff.
  apply Hinj in Hy as ->. by apply Hx, list_elem_of_In.
Qed.

Lemma create_all_tiles_Permutation uuid rnd :
  create_all_tiles uuid rnd ≡ₚ unshuffled_tiles uuid.
Proof. unfold create_all_tiles. apply shuffle_Permutation. Qed.

Lemma catalog_size :
  (length (shapes get_tile_types) * length (colors get_tile_types)
   * tiles_per_type get_tile_types)%nat = 1080%nat.
Proof. vm_compute. reflexivity. Qed.

(** X21. The pool holds tiles of the types listed by [get_tile_types] only:
    every tile of [create_all_tiles] has a shape and a color of the
    catalog, and the pool has |shapes| * |colors| * tiles_per_type tiles.
    The ids of the tiles are the first identifiers generated, one for each
    tile, so they are pairwise distinct when the generator never repeats
    itself. *)
Theorem pool_matches_catalog (uuid : nat → string) (rnd : nat → nat) :
  (∀ t, t ∈ create_all_tiles uuid rnd →
     shape t ∈ shapes get_tile_types ∧ color t ∈ colors get_tile_types)
  ∧ length (create_all_tiles uuid rnd)
    = (length (shapes get_tile_types) * length (colors get_tile_types)
       * tiles_per_type get_tile_types)%nat
  ∧ map Tile_id (create_all_tiles uuid rnd)
    ≡ₚ map uuid (seq 0 (length (create_all_tiles uuid rnd)))
  ∧ ((∀ i j, uuid i = uuid j → i = j) →
     NoDup (map Tile_id (create_all_tiles uuid rnd))).
Proof.
  assert (Hids : map Tile_id (create_all_tiles uuid rnd)
                 ≡ₚ map uuid (seq 0 (length (create_all_tiles uuid rnd)))).
  { unfold create_all_tiles. apply shuffled_ids, unshuffled_tiles_ids. }
  split_and!.
  - intros t Ht. rewrite create_all_tiles_Permutation in Ht.
    pose proof (unshuffled_tiles_types uuid) as H.
    rewrite Forall_forall in H. exact (H t Ht).
  - rewrite catalog_size. apply create_all_tiles_length.
  - done.
  - intros Hinj. rewrite Hids.
    apply NoDup_map_inj; [done|]. apply NoDup_seq.
Qed.

(** ** What validation looks at *)

Lemma occupied_Permutation pos b b' : b ≡ₚ b' → occupied pos b ↔ occupied pos b'.
Proof.
  intros H. unfold occupied. split; intros (pt & Hin & Hpos); exists pt;
    (split; [|done]); [by rewrite <- H|by rewrite H].
Qed.

Lemma board_positions_Permutation b b' :
  b ≡ₚ b' → board_positions b ≡ₚ board_positions b'.
Proof. intros H. unfold board_positions. by apply Permutation_map. Qed.

Lemma tile_at_Permutation n b b' :
  NoDup (board_positions b) → b ≡ₚ b' → tile_at n b = tile_at n b'.
Proof.
  intros Hnd Hperm.
  assert (Hnd' : NoDup (board_positions b'))
    by (by rewrite <- (board_positions_Permutation b b' Hperm)).
  destruct (tile_at n b) as [pt|] eqn:E.
  - apply tile_at_Some_elem in E as [Hin <-]. symmetry.
    apply tile_at_unique; [done|]. by rewrite <- Hperm.
  - destruct (tile_at n b') as [pt'|] eqn:E'; [|done].
    apply tile_at_Some_elem in E' as [Hin <-].
    rewrite tile_at_unique in E; [done|done|]. by rewrite Hperm.
Qed.

Lemma bool_eq_iff (x y : bool) : (x = true ↔ y = true) → x = y.
Proof. destruct x, y; intros [H1 H2]; try done; [by rewrite H1|by rewrite H2]. Qed.

(** X22. Validation looks at the candidate's shape and color only -- two
    tiles that agree on both are accepted or rejected alike, whatever their
    ids -- and, on a board with one tile per position, not at the order in
    which the board lists its tiles. *)
Theorem validate_tile_placement_looks_at (t t' : Tile) (pos : Position)
    (b b' : list PlacedTile) :
  (shape t = shape t' → color t = color t' →
   validate_tile_placement t pos b = validate_tile_placement t' pos b)
  ∧ (NoDup (board_positions b) → b ≡ₚ b' →
     validate_tile_placement t pos b = validate_tile_placement t pos b').
Proof.
  split.
  - intros Hs Hc. apply bool_eq_iff.
    rewrite !validate_tile_placement_true. unfold placement_ok, shares_attribute.
    by rewrite Hs, Hc.
  - intros Hnd Hperm. apply bool_eq_iff.
    rewrite !validate_tile_placement_true. unfold placement_ok.
    assert (Hnil : b = [] ↔ b' = []).
    { split; intros ->;
        [by apply Permutation_nil_l in Hperm|by apply Permutation_nil_r in Hperm]. }
    rewrite (occupied_Permutation pos b b' Hperm), Hnil.
    split; intros (H1 & H2 & H3); (split; [done|]); split.
    + destruct H2 as [?|(n & Hn & Ho)]; [by left|right].
      exists n. split; [done|]. by rewrite <- (occupied_Permutation n b b').
    + intros n pt Hn Hpt. apply (H3 n pt Hn).
      by rewrite (tile_at_Permutation n b b').
    + destruct H2 as [?|(n & Hn & Ho)]; [by left|right].
      exists n. split; [done|]. by rewrite (occupied_Permutation n b b').
    + intros n pt Hn Hpt. apply (H3 n pt Hn).
      by rewrite <- (tile_at_Permutation n b b').
Qed.

(** ** The effect of a placement *)

(** X23. A successful placement, seen from the acting player: the tiles
    asked for leave the hand (for each, the first of that shape and
    color), min(len(tiles), pile size) replacement tiles are taken from
    the front of the draw pile, in order, and appended to the hand; the
    pile keeps the rest. When no more tiles than positions were sent, the
    score grows by the score of the pairs against the board before the
    action, plus 6 if the hand is then empty. *)
Theorem place_draws_from_front (rnd : nat → nat)
    (request : GameActionRequest) (games games' : list GameState)
    (g g' : GameState) (k : nat) (p : Player) :
  find_one (game_id request) games = Some g →
  action_type (action request) = PLACE →
  perform_action rnd request games = (Return g', games') →
  py_index (length (players g)) (current_player_index g) = Some k →
  players g !! k = Some p →
  ∃ ts ps h1 p',
    tiles (action request) = Some ts ∧ positions (action request) = Some ps
    ∧ remove_tiles ts (hand p) = Some h1
    ∧ players g' !! k = Some p'
    ∧ hand p'
      = h1 ++ take (length ts `min` length (remaining_tiles g))
                (remaining_tiles g)
    ∧ remaining_tiles g'
      = drop (length ts `min` length (remaining_tiles g)) (remaining_tiles g)
    ∧ ((length ts ≤ length ps)%nat →
       score p'
       = score p + calculate_score (zip ts ps) (board g)
         + (if bool_decide (hand p' = []) then 6 else 0)).
Proof.
  intros Hfind Hty Hrun Hk Hp.
  destruct (perform_action_step _ _ _ _ _ _ Hfind Hrun)
    as (Hst & _ & k0 & p0 & g1 & g2 & Hk0 & Hp0 & _ & Hbranch & Hnext & Hend).
  assert (k0 = k) as -> by congruence.
  assert (p0 = p) as -> by congruence.
  destruct (finish_fields g1 g2 g' Hnext Hend) as (_ & Fp & _ & Fr & _).
  rewrite Hty in Hbranch.
  apply (place_Return _ _ _ p) in Hbranch
    as (ts & ps & h1 & Hts & Hps & Hts0 & _ & _ & Hrem & ->); [|done].
  rewrite Fp, Fr. unfold place_outcome. simpl.
  exists ts, ps, h1. eexists. split_and!; try done.
  - apply list_lookup_insert_eq. by eapply lookup_lt_Some.
  - done.
  - intros Hle. simpl.
    rewrite py_drop_last_appended;
      [|by destruct ts|rewrite length_map, length_zip; lia].
    case_bool_decide; lia.
Qed.

(** ** The further properties at concrete games *)

Lemma late_pass_run :
  perform_action identity_draws late_pass [late_game]
  = (Return late_passed, [late_passed]).
Proof. vm_compute. reflexivity. Defined.

Lemma late_place_run :
  perform_action identity_draws late_place [late_game]
  = (Return late_placed, [late_placed]).
Proof. vm_compute. reflexivity. Defined.

Lemma late_exchange_run :
  perform_action identity_draws late_exchange [late_game]
  = (Return late_exchanged, [late_exchanged]).
Proof. vm_compute. reflexivity. Defined.


Lemma create_game_roster_witness :
  (0 < Z.to_nat (num_ai_players (mkCreateGameRequest "A" 1)))%nat
  ∧ ∃ h, players demo_game !! 1%nat
         = Some (mkPlayer "u2" "AI Player 1" AI h 0 true).
Proof.
  assert (H : (0 < Z.to_nat (num_ai_players (mkCreateGameRequest "A" 1)))%nat)
    by (simpl; lia).
  split; [exact H|].
  exact (proj2 (proj2 (proj2 (proj2 (proj2 (proj2 (proj2 (proj2 (proj2
    (create_game_roster demo_uuid 0 identity_draws
       (mkCreateGameRequest "A" 1) []))))))))) O H).
Defined.

Lemma create_game_deal_witness :
  (length (players demo_game) < 180)%nat
  ∧ length (remaining_tiles demo_game)
    = (1079 - 6 * length (players demo_game))%nat.
Proof.
  assert (H : (length (players demo_game) < 180)%nat)
    by (vm_compute; lia).
  split; [exact H|].
  exact (proj2 (proj1 (proj2 (proj2 (proj2
    (create_game_deal demo_uuid 0 identity_draws
       (mkCreateGameRequest "A" 1) [])))) H)).
Defined.

Lemma action_advances_turn_witness :
  find_one (game_id late_pass) [late_game] = Some late_game
  ∧ perform_action identity_draws late_pass [late_game]
    = (Return late_passed, [late_passed])
  ∧ turn_number late_passed = turn_number late_game + 1.
Proof.
  assert (H1 : find_one (game_id late_pass) [late_game] = Some late_game)
    by reflexivity.
  split; [exact H1|]. split; [exact late_pass_run|].
  exact (proj1 (action_advances_turn identity_draws late_pass [late_game]
                  [late_passed] late_game late_passed H1 late_pass_run)).
Defined.

Lemma player_to_move_witness :
  reachable demo_game
  ∧ current_player_index demo_game
    = turn_number demo_game `mod` Z.of_nat (length (players demo_game)).
Proof.
  assert (H : reachable demo_game) by apply reachable_create.
  split; [exact H|].
  exact (proj1 (proj2 (proj2 (proj2 (player_to_move demo_game H))))).
Defined.


Lemma passes_in_a_row_witness :
  find_one (game_id late_pass) [late_game] = Some late_game
  ∧ perform_action identity_draws late_pass [late_game]
    = (Return late_passed, [late_passed])
  ∧ action_type (action late_pass) = PASS
  ∧ status late_passed = FINISHED.
Proof.
  assert (H1 : find_one (game_id late_pass) [late_game] = Some late_game)
    by reflexivity.
  assert (H3 : action_type (action late_pass) = PASS) by reflexivity.
  split; [exact H1|]. split; [exact late_pass_run|]. split; [exact H3|].
  exact (proj2 (proj2 passes_in_a_row) identity_draws late_pass [late_game]
           late_game late_passed [late_passed] H1 late_pass_run H3).
Defined.

Lemma players_after_action_witness :
  find_one (game_id late_place) [late_game] = Some late_game
  ∧ perform_action identity_draws late_place [late_game]
    = (Return late_placed, [late_placed])
  ∧ py_index (length (players late_game)) (current_player_index late_game)
    = Some O
  ∧ players late_placed !! 1%nat = players late_game !! 1%nat.
Proof.
  assert (H1 : find_one (game_id late_place) [late_game] = Some late_game)
    by reflexivity.
  assert (H3 : py_index (length (players late_game))
                 (current_player_index late_game) = Some O) by reflexivity.
  split; [exact H1|]. split; [exact late_place_run|]. split; [exact H3|].
  apply (proj1 (proj2 (players_after_action identity_draws late_place
                         [late_game] [late_placed] late_game late_placed O
                         H1 late_place_run H3))).
  discriminate.
Defined.

Lemma board_after_action_witness :
  find_one (game_id late_place) [late_game] = Some late_game
  ∧ perform_action identity_draws late_place [late_game]
    = (Return late_placed, [late_placed])
  ∧ board late_game `prefix_of` board late_placed.
Proof.
  assert (H1 : find_one (game_id late_place) [late_game] = Some late_game)
    by reflexivity.
  split; [exact H1|]. split; [exact late_place_run|].
  exact (proj1 (board_after_action identity_draws late_place [late_game]
                  [late_placed] late_game late_placed H1 late_place_run)).
Defined.

Lemma hands_at_most_six_witness :
  reachable demo_game ∧ demo_human ∈ players demo_game
  ∧ (length (hand demo_human) ≤ 6)%nat.
Proof.
  assert (H1 : reachable demo_game) by apply reachable_create.
  assert (H2 : demo_human ∈ players demo_game) by (vm_compute; left).
  split; [exact H1|]. split; [exact H2|].
  exact (proj1 (hands_at_most_six demo_game demo_human H1 H2)).
Defined.

Lemma pass_keeps_tiles_witness :
  find_one (game_id late_pass) [late_game] = Some late_game
  ∧ perform_action identity_draws late_pass [late_game]
    = (Return late_passed, [late_passed])
  ∧ action_type (action late_pass) = PASS
  ∧ players late_passed = players late_game.
Proof.
  assert (H1 : find_one (game_id late_pass) [late_game] = Some late_game)
    by reflexivity.
  assert (H3 : action_type (action late_pass) = PASS) by reflexivity.
  split; [exact H1|]. split; [exact late_pass_run|]. split; [exact H3|].
  exact (proj1 (pass_keeps_tiles identity_draws late_pass [late_game]
                  [late_passed] late_game late_passed H1 late_pass_run H3)).
Defined.

Lemma late_intruder_run :
  perform_action identity_draws late_intruder [late_game]
  = (Raise (HTTPException 400 "Not your turn"), [late_game]).
Proof. vm_compute. reflexivity. Defined.

Lemma perform_action_http_errors_witness :
  perform_action identity_draws late_intruder [late_game]
  = (Raise (HTTPException 400 "Not your turn"), [late_game])
  ∧ ((HTTPException 400 "Not your turn" = HTTPException 404 "Game not found"
      ∧ find_one (game_id late_intruder) [late_game] = None)
     ∨ ∃ g, find_one (game_id late_intruder) [late_game] = Some g
            ∧ ((∃ d, HTTPException 400 "Not your turn" = HTTPException 400 d)
               ∨ (HTTPException 400 "Not your turn" = IndexError
                  ∧ ¬ reachable g
                  ∧ py_index (length (players g)) (current_player_index g)
                    = None))).
Proof.
  split; [exact late_intruder_run|].
  exact (perform_action_http_errors identity_draws late_intruder [late_game]
           [late_game] (HTTPException 400 "Not your turn") late_intruder_run).
Defined.

Lemma perform_action_stores_result_witness :
  find_one (game_id late_pass) [late_game] = Some late_game
  ∧ perform_action identity_draws late_pass [late_game]
    = (Return late_passed, [late_passed])
  ∧ get_game (game_id late_pass) [late_passed] = Return late_passed.
Proof.
  assert (H1 : find_one (game_id late_pass) [late_game] = Some late_game)
    by reflexivity.
  split; [exact H1|]. split; [exact late_pass_run|].
  exact (proj1 (perform_action_stores_result identity_draws late_pass
                  [late_game] [late_passed] late_game late_passed
                  H1 late_pass_run)).
Defined.

Lemma create_game_stores_game_witness :
  find_one (demo_uuid O) [] = None
  ∧ get_game (demo_uuid O)
      (create_game demo_uuid 0 identity_draws (mkCreateGameRequest "A" 1) []).2
    = Return demo_game.
Proof.
  assert (H : find_one (demo_uuid O) [] = None) by reflexivity.
  split; [exact H|].
  exact (proj1 (proj2 (proj2
    (create_game_stores_game demo_uuid 0 identity_draws
       (mkCreateGameRequest "A" 1) []))) H).
Defined.

Lemma perform_action_refusals_witness :
  find_one (game_id late_pass) [late_passed] = Some late_passed
  ∧ status late_passed ≠ IN_PROGRESS
  ∧ perform_action identity_draws late_pass [late_passed]
    = (Raise (HTTPException 400 "Game is not in progress"), [late_passed]).
Proof.
  assert (H1 : find_one (game_id late_pass) [late_passed] = Some late_passed)
    by (vm_compute; reflexivity).
  assert (H2 : status late_passed ≠ IN_PROGRESS) by (vm_compute; discriminate).
  split; [exact H1|]. split; [exact H2|].
  exact (proj1 (proj2
    (perform_action_refusals identity_draws late_pass [late_passed]))
    late_passed H1 H2).
Defined.

Lemma remove_from_hand_first_witness :
  players late_game !! O = Some late_p1
  ∧ hand late_p1 = [] ++ mkTile "star" "red" "t1" :: []
  ∧ remove_from_hand O star_red late_game
    = (Return (),
       set_players (<[O := set_hand ([] ++ []) late_p1]> (players late_game))
         late_game).
Proof.
  assert (H1 : players late_game !! O = Some late_p1) by reflexivity.
  assert (H2 : hand late_p1 = [] ++ mkTile "star" "red" "t1" :: [])
    by reflexivity.
  split; [exact H1|]. split; [exact H2|].
  apply (proj1 (remove_from_hand_first O star_red late_game late_p1 H1)
           [] (mkTile "star" "red" "t1") [] H2); [reflexivity..|].
  intros y Hy. apply elem_of_nil in Hy. destruct Hy.
Defined.


Lemma exchange_returns_tiles_witness :
  find_one (game_id late_exchange) [late_game] = Some late_game
  ∧ perform_action identity_draws late_exchange [late_game]
    = (Return late_exchanged, [late_exchanged])
  ∧ py_index (length (players late_game)) (current_player_index late_game)
    = Some O
  ∧ players late_game !! O = Some late_p1
  ∧ ∃ h, players late_exchanged !! O = Some (set_hand h late_p1)
         ∧ h ++ remaining_tiles late_exchanged
           ≡ₚ remaining_tiles late_game ++ hand late_p1
         ∧ board late_exchanged = board late_game.
Proof.
  assert (H1 : find_one (game_id late_exchange) [late_game] = Some late_game)
    by reflexivity.
  assert (H3 : py_index (length (players late_game))
                 (current_player_index late_game) = Some O) by reflexivity.
  assert (H4 : players late_game !! O = Some late_p1) by reflexivity.
  split; [exact H1|]. split; [exact late_exchange_run|].
  split; [exact H3|]. split; [exact H4|].
  exact (exchange_returns_tiles identity_draws late_exchange [late_game]
           [late_exchanged] late_game late_exchanged O late_p1
           H1 eq_refl late_exchange_run H3 H4).
Defined.

Lemma place_draws_from_front_witness :
  find_one (game_id late_place) [late_game] = Some late_game
  ∧ perform_action identity_draws late_place [late_game]
    = (Return late_placed, [late_placed])
  ∧ py_index (length (players late_game)) (current_player_index late_game)
    = Some O
  ∧ players late_game !! O = Some late_p1
  ∧ ∃ ts ps h1 p',
      tiles (action late_place) = Some ts
      ∧ positions (action late_place) = Some ps
      ∧ remove_tiles ts (hand late_p1) = Some h1
      ∧ players late_placed !! O = Some p'
      ∧ hand p'
        = h1 ++ take (length ts `min` length (remaining_tiles late_game))
                  (remaining_tiles late_game)
      ∧ remaining_tiles late_placed
        = drop (length ts `min` length (remaining_tiles late_game))
            (remaining_tiles late_game)
      ∧ ((length ts ≤ length ps)%nat →
         score p'
         = score late_p1 + calculate_score (zip ts ps) (board late_game)
           + (if bool_decide (hand p' = []) then 6 else 0)).
Proof.
  assert (H1 : find_one (game_id late_place) [late_game] = Some late_game)
    by reflexivity.
  assert (H3 : py_index (length (players late_game))
                 (current_player_index late_game) = Some O) by reflexivity.
  assert (H4 : players late_game !! O = Some late_p1) by reflexivity.
  split; [exact H1|]. split; [exact late_place_run|].
  split; [exact H3|]. split; [exact H4|].
  exact (place_draws_from_front identity_draws late_place [late_game]
           [late_placed] late_game late_placed O late_p1
           H1 eq_refl late_place_run H3 H4).
Defined.

Lemma calculate_score_order_witness :
  [(star_red, mkPosition 0 1); (star_blue, mkPosition 1 0)]
  ≡ₚ [(star_blue, mkPosition 1 0); (star_red, mkPosition 0 1)]
  ∧ [referee_tile] ≡ₚ [referee_tile]
  ∧ calculate_score
      [(star_red, mkPosition 0 1); (star_blue, mkPosition 1 0)] [referee_tile]
    = calculate_score
        [(star_blue, mkPosition 1 0); (star_red, mkPosition 0 1)]
        [referee_tile].
Proof.
  assert (H1 : [(star_red, mkPosition 0 1); (star_blue, mkPosition 1 0)]
               ≡ₚ [(star_blue, mkPosition 1 0); (star_red, mkPosition 0 1)])
    by apply Permutation_swap.
  assert (H2 : [referee_tile] ≡ₚ [referee_tile]) by reflexivity.
  split; [exact H1|]. split; [exact H2|].
  exact (proj1 (calculate_score_order
                  [(star_red, mkPosition 0 1); (star_blue, mkPosition 1 0)]
                  [(star_blue, mkPosition 1 0); (star_red, mkPosition 0 1)]
                  [referee_tile] [referee_tile] [])
           H1 H2).
Defined.

Lemma validate_tile_placement_looks_at_witness :
  shape star_red = shape (mkTile "star" "red" "other")
  ∧ color star_red = color (mkTile "star" "red" "other")
  ∧ validate_tile_placement star_red (mkPosition 0 1) [referee_tile]
    = validate_tile_placement (mkTile "star" "red" "other") (mkPosition 0 1)
        [referee_tile].
Proof.
  split; [reflexivity|]. split; [reflexivity|].
  exact (proj1 (validate_tile_placement_looks_at star_red
                  (mkTile "star" "red" "other") (mkPosition 0 1)
                  [referee_tile] [referee_tile]) eq_refl eq_refl).
Defined.

Lemma get_neighbors_contract_witness :
  tile_at (mkPosition 0 0) [referee_tile] = Some referee_tile
  ∧ ∃ l1 l2, [referee_tile] = l1 ++ referee_tile :: l2
             ∧ position referee_tile = mkPosition 0 0
             ∧ ∀ pt', pt' ∈ l2 → position pt' ≠ mkPosition 0 0.
Proof.
  assert (H : tile_at (mkPosition 0 0) [referee_tile] = Some referee_tile)
    by reflexivity.
  split; [exact H|].
  exact (proj2 (proj2
    (get_neighbors_contract (mkPosition 0 0) [referee_tile]))
    (mkPosition 0 0) referee_tile H).
Defined.

Lemma demo_uuid_inj i j : demo_uuid i = demo_uuid j → i = j.
Proof.
  unfold demo_uuid. intros H. apply (inj pretty).
  by apply (inj (String.append "u")) in H.
Qed.

Lemma pool_matches_catalog_witness :
  (∀ i j, demo_uuid i = demo_uuid j → i = j)
  ∧ NoDup (map Tile_id (create_all_tiles demo_uuid identity_draws)).
Proof.
  split; [exact demo_uuid_inj|].
  exact (proj2 (proj2 (proj2
    (pool_matches_catalog demo_uuid identity_draws))) demo_uuid_inj).
Defined.
